(** * cxd5602pwbimu-logger: wire framing, receiver scan loop and transmitter

    A shallow embedding of
    - the binary frame parser and the receive loop proposed in
      [receiver/uart_optimization_report.md]
      ([parse_binary_sensor_data], [read_binary_sensor_data]);
    - the transmitter sketch [cxd5602pwbimu-logger.ino]
      ([start_sensing], [drop_50msdata], [log2uart], [dump_data],
      [print_help], [setup]).

    Bytes are integers in [0, 256), 32-bit words integers in [0, 2^32); a
    [float] / [f32] is carried as its IEEE-754 bit pattern, which is all the
    code ever does with one. *)

From Stdlib Require Import ZArith List String Ascii Bool Lia QArith.
From Stdlib Require Import DecimalString.
Import ListNotations.

Local Open Scope string_scope.
Local Open Scope list_scope.
Local Open Scope Z_scope.

(* ------------------------------------------------------------------------- *)
(** ** Machine integers and floats on the wire *)

Module Wire.

Definition u8 (b : Z) : Prop := 0 <= b < 256.
Definition u32 (w : Z) : Prop := 0 <= w < 2 ^ 32.

(** [u32::from_le_bytes([b0, b1, b2, b3])]. *)
Definition u32_from_le_bytes (b0 b1 b2 b3 : Z) : Z :=
  b0 + b1 * 2 ^ 8 + b2 * 2 ^ 16 + b3 * 2 ^ 24.

(** [u32::to_le_bytes], the inverse the frame layout is written with. *)
Definition u32_to_le_bytes (w : Z) : list Z :=
  [w mod 256; (w / 2 ^ 8) mod 256; (w / 2 ^ 16) mod 256; (w / 2 ^ 24) mod 256].

(** A single-precision float, known by its bits: [f32::from_bits] on the
    receiver, [*reinterpret_cast<uint32_t*>(&x)] on the transmitter. *)
Inductive f32 : Set := f32_from_bits (bits : Z).

Definition f32_to_bits (x : f32) : Z := let (bits) := x in bits.

(** The rational a finite binary32 pattern denotes (IEEE-754: 1 sign bit,
    8 exponent bits biased by 127, 23 fraction bits); [None] for the
    infinities and NaNs. *)
Definition f32_value (x : f32) : option Q :=
  let bits := f32_to_bits x in
  let sign := if Z.testbit bits 31 then (-1) else 1 in
  let e := Z.land (Z.shiftr bits 23) 255 in
  let frac := Z.land bits (2 ^ 23 - 1) in
  if e =? 255 then None
  else
    let m := if e =? 0 then frac else 2 ^ 23 + frac in
    let e' := if e =? 0 then 1 - 150 else e - 150 in
    Some (Qred (inject_Z (sign * m) * Qpower 2 e')).

End Wire.
Export Wire.

(* ------------------------------------------------------------------------- *)
(** ** CRC-8 *)

Module Crc8.

(** Modelled from the spec: [calculate_crc8], which
    [parse_binary_sensor_data] calls and the report does not define.  The
    specification asks for a "CRC-8 computed over the 32 payload bytes", an
    8-bit cyclic redundancy check, and names no generator polynomial, so the
    check is given here for any polynomial, initial register and final xor:
    the register is shifted left one bit at a time, most significant bit
    first, and the polynomial is xored in whenever a one is shifted out. *)
Definition crc8_shift (poly crc : Z) : Z :=
  let shifted := Z.land (Z.shiftl crc 1) 255 in
  if Z.testbit crc 7 then Z.lxor shifted poly else shifted.

(** Modelled from the spec: the register after one more byte of the
    message, xored in and shifted through bit by bit. *)
Definition crc8_byte (poly crc b : Z) : Z :=
  Nat.iter 8 (crc8_shift poly) (Z.lxor crc b).

(** Modelled from the spec: the checksum of a message. *)
Definition crc8 (poly init xorout : Z) (data : list Z) : Z :=
  Z.lxor (fold_left (crc8_byte poly) data init) xorout.

(** Modelled from the spec: the instance used for the concrete frames, the
    plain CRC-8 with generator x^8 + x^2 + x + 1, register cleared at the
    start and no final xor. *)
Definition calculate_crc8 : list Z -> Z := crc8 7 0 0.

End Crc8.

(* ------------------------------------------------------------------------- *)
(** ** The receiver: [parse_binary_sensor_data], [read_binary_sensor_data] *)

Module Receiver.

Record SensorData : Set := mkSensorData {
  timestamp : Z;
  temp : f32;
  gx : f32;
  gy : f32;
  gz : f32;
  ax : f32;
  ay : f32;
  az : f32;
  system_timestamp : Z
}.

Inductive ReceiverError : Set := ParseError (msg : string).

(** The kinds of [std::io::Error] the loop tells apart: a timeout, and the
    rest. *)
Inductive ErrorKind : Set := TimedOut | NotConnected | BrokenPipe | Other.

(** The error type behind [Result<T>], built with [.into()]. *)
Inductive Error : Set :=
| FromReceiver (e : ReceiverError)
| FromIo (kind : ErrorKind).

Inductive Result (T : Type) : Type :=
| Ok (t : T)
| Err (e : Error).
Arguments Ok {T} t.
Arguments Err {T} e.

(** What [port.read(&mut buffer)] hands back: [Ok(n)] together with the [n]
    bytes it stored at the front of the buffer, or an I/O error. *)
Inductive PortRead : Set :=
| ReadOk (bytes : list Z)
| ReadErr (kind : ErrorKind).

Definition BUFFER_LEN : nat := 4096.
Definition FRAME_LEN : nat := 35.

(** The local [let mut buffer = [0u8; 4096]] after the read has stored
    [bytes] at its front. *)
Definition fill_buffer (bytes : list Z) : list Z :=
  firstn BUFFER_LEN (bytes ++ repeat 0 BUFFER_LEN).

Section Decoder.

(** The checksum the parser calls, and the wall clock: [clock k] is what the
    [k]-th call of [Utc::now().timestamp_millis()] answers. *)
Variable calculate_crc8 : list Z -> Z.
Variable clock : nat -> Z.

(** [buffer[i]]; every index the two functions use is guarded by a length
    check first, so the default is never read. *)
Definition at_ (buffer : list Z) (i : nat) : Z := nth i buffer 0.

(** [&buffer[lo..hi]]. *)
Definition slice (buffer : list Z) (lo hi : nat) : list Z :=
  firstn (hi - lo) (skipn lo buffer).

Definition le_word (buffer : list Z) (i : nat) : Z :=
  u32_from_le_bytes (at_ buffer i) (at_ buffer (i + 1))
                    (at_ buffer (i + 2)) (at_ buffer (i + 3)).

(** [now] is the clock reading taken on the success path. *)
Definition parse_binary_sensor_data (buffer : list Z) (start_index : nat)
    (now : Z) : Result (SensorData * nat) :=
  if (List.length buffer <? start_index + 35)%nat then
    Err (FromReceiver (ParseError "Incomplete data frame"))
  else if negb (at_ buffer start_index =? 170)
          || negb (at_ buffer (start_index + 1) =? 85) then
    Err (FromReceiver (ParseError "Invalid frame header"))
  else
    let timestamp := le_word buffer (start_index + 2) in
    let temp := f32_from_bits (le_word buffer (start_index + 6)) in
    let gx := f32_from_bits (le_word buffer (start_index + 10)) in
    let gy := f32_from_bits (le_word buffer (start_index + 14)) in
    let gz := f32_from_bits (le_word buffer (start_index + 18)) in
    let ax := f32_from_bits (le_word buffer (start_index + 22)) in
    let ay := f32_from_bits (le_word buffer (start_index + 26)) in
    let az := f32_from_bits (le_word buffer (start_index + 30)) in
    let calculated_crc :=
      calculate_crc8 (slice buffer (start_index + 2) (start_index + 34)) in
    if negb (calculated_crc =? at_ buffer (start_index + 34)) then
      Err (FromReceiver (ParseError "CRC check failed"))
    else
      let system_ts := now in
      Ok (mkSensorData timestamp temp gx gy gz ax ay az system_ts,
          (start_index + 35)%nat).

(** The variables of the [while index < n] loop, with the number of clock
    readings taken so far. *)
Record scan_state : Set := mkScan {
  index : nat;
  result : list SensorData;
  ticks : nat
}.

(** One turn of the loop body. *)
Definition scan_step (buffer : list Z) (n : nat) (st : scan_state)
    : scan_state :=
  let i := index st in
  if (i + 1 <? n)%nat && (at_ buffer i =? 170) && (at_ buffer (i + 1) =? 85)
  then
    match parse_binary_sensor_data buffer i (clock (ticks st)) with
    | Ok (data, next_index) =>
        mkScan next_index (result st ++ [data]) (S (ticks st))
    | Err _ => mkScan (i + 1) (result st) (ticks st)
    end
  else mkScan (i + 1) (result st) (ticks st).

(** The loop itself; every turn moves [index] forward, so [n] turns are
    always enough. *)
Fixpoint scan_loop (fuel : nat) (buffer : list Z) (n : nat)
    (st : scan_state) : scan_state :=
  match fuel with
  | O => st
  | S fuel' =>
      if (index st <? n)%nat
      then scan_loop fuel' buffer n (scan_step buffer n st)
      else st
  end.

(** One call; the second component is the number of clock readings taken
    when it returns. *)
Definition read_binary_sensor_data (port_read : PortRead) (ticks0 : nat)
    : Result (list SensorData) * nat :=
  match port_read with
  | ReadErr TimedOut => (Ok [], ticks0)
  | ReadErr kind => (Err (FromIo kind), ticks0)
  | ReadOk bytes =>
      let buffer := fill_buffer bytes in
      let n := Nat.min (List.length bytes) BUFFER_LEN in
      if (n =? 0)%nat then (Ok [], ticks0)
      else
        let st := scan_loop n buffer n (mkScan 0 [] ticks0) in
        (Ok (result st), ticks st)
  end.

(** Feeding a stream chunk by chunk: one call per chunk, the clock running
    on; the first error ends it. *)
Fixpoint feed_chunks (chunks : list (list Z)) (ticks0 : nat)
    : Result (list SensorData) * nat :=
  match chunks with
  | [] => (Ok [], ticks0)
  | c :: rest =>
      match read_binary_sensor_data (ReadOk c) ticks0 with
      | (Ok samples, t1) =>
          match feed_chunks rest t1 with
          | (Ok more, t2) => (Ok (samples ++ more), t2)
          | (Err e, t2) => (Err e, t2)
          end
      | (Err e, t1) => (Err e, t1)
      end
  end.

End Decoder.

(** The frame the wire format lays out for a sample: marker, timestamp,
    seven floats, checksum. *)
Definition payload_bytes (ts t x y z a b c : Z) : list Z :=
  u32_to_le_bytes ts ++ u32_to_le_bytes t ++ u32_to_le_bytes x
  ++ u32_to_le_bytes y ++ u32_to_le_bytes z ++ u32_to_le_bytes a
  ++ u32_to_le_bytes b ++ u32_to_le_bytes c.

Definition frame_bytes (payload : list Z) (crc : Z) : list Z :=
  [170; 85] ++ payload ++ [crc].

(** The sample a 32-byte payload spells out, fields in wire order. *)
Definition decode_payload (payload : list Z) (now : Z) : SensorData :=
  mkSensorData (le_word payload 0)
    (f32_from_bits (le_word payload 4)) (f32_from_bits (le_word payload 8))
    (f32_from_bits (le_word payload 12)) (f32_from_bits (le_word payload 16))
    (f32_from_bits (le_word payload 20)) (f32_from_bits (le_word payload 24))
    (f32_from_bits (le_word payload 28)) now.

(** A valid frame carries the checksum of its payload; a stream of valid
    frames, and the samples it spells out when the first of them is stamped
    with clock reading [t]. *)
Definition valid_frame (crc : list Z -> Z) (payload : list Z) : list Z :=
  frame_bytes payload (crc payload).

Definition frames_stream (crc : list Z -> Z) (payloads : list (list Z))
    : list Z :=
  List.concat (map (valid_frame crc) payloads).

Fixpoint frames_samples (clock : nat -> Z) (payloads : list (list Z))
    (t : nat) : list SensorData :=
  match payloads with
  | [] => []
  | p :: rest => decode_payload p (clock t) :: frames_samples clock rest (S t)
  end.

(** The whole loop from a state on, with the turns it can need. *)
Definition scan (crc : list Z -> Z) (clock : nat -> Z) (buffer : list Z)
    (n : nat) (st : scan_state) : scan_state :=
  scan_loop crc clock (n - index st) buffer n st.

(** The test that guards the call of the parser in the loop. *)
Definition marker_at (buffer : list Z) (n i : nat) : bool :=
  (i + 1 <? n)%nat && (at_ buffer i =? 170) && (at_ buffer (i + 1) =? 85).

(** Bit [k] of the byte at offset [i] flipped. *)
Definition flip_bit_at (bytes : list Z) (i : nat) (k : Z) : list Z :=
  firstn i bytes ++ Z.lxor (nth i bytes 0) (2 ^ k) :: skipn (S i) bytes.

(** Bit [bit] of the 256 payload bits of a frame flipped. *)
Definition flip_payload_bit (frame : list Z) (bit : nat) : list Z :=
  flip_bit_at frame (2 + bit / 8) (Z.of_nat (bit mod 8)).

(** The payload of the specification's binary scenario: timestamp 300 and
    seven times the pattern of 1.0. *)
Definition scenario_payload : list Z :=
  [44; 1; 0; 0] ++ [0; 0; 128; 63] ++ [0; 0; 128; 63] ++ [0; 0; 128; 63]
  ++ [0; 0; 128; 63] ++ [0; 0; 128; 63] ++ [0; 0; 128; 63]
  ++ [0; 0; 128; 63].

Definition ONE : f32 := f32_from_bits 1065353216.   (* 0x3F800000 *)
Definition TEN : f32 := f32_from_bits 1092616192.   (* 0x41200000 *)

End Receiver.

(* ------------------------------------------------------------------------- *)
(** ** The transmitter sketch *)

Module Logger.

Definition MAX_NFIFO : Z := 4.
Definition CXD5602PWBIMU_DEVPATH : string := "/dev/imu0".

(** From the NuttX headers the sketch includes: the readable-data event of
    [poll], and the sample the driver delivers (a [uint32_t] and seven
    [float]s, 32 bytes). *)
Definition POLLIN : Z := 1.

Record cxd5602pwbimu_data_t : Set := mkData {
  timestamp : Z;
  temp : f32;
  gx : f32;
  gy : f32;
  gz : f32;
  ax : f32;
  ay : f32;
  az : f32
}.

Definition sizeof_data : Z := 32.

(** [int] and [size_t] of the 32-bit target; signed results wrap. *)
Definition to_int (z : Z) : Z := (z + 2 ^ 31) mod 2 ^ 32 - 2 ^ 31.
Definition to_size_t (z : Z) : Z := z mod 2 ^ 32.

(** *** The world the sketch runs in

    Every call into the system is answered from the world: the answers still
    to come are queued per call, in the order the calls will be made, and
    each call is logged with its arguments.  A call whose queue is empty does
    not return. *)

Inductive ioctl_request : Set :=
| SNIOC_SSAMPRATE
| SNIOC_SDRANGE
| SNIOC_SFIFOTHRESH
| SNIOC_ENABLE.

Inductive ioctl_arg : Set :=
| ArgInt (v : Z)
| ArgRange (accel gyro : Z).

Inductive syscall : Set :=
| SerialBegin (baud : Z)
| BoardInitialize (bus : Z)
| Open (path : string)
| Ioctl (fd : Z) (req : ioctl_request) (arg : ioctl_arg)
| ReadImu (fd : Z) (nbytes : Z)
| Poll (timeout_ms : Z)
| ReadStdin
| Fwrite (fp : Z) (dat : list cxd5602pwbimu_data_t).

Record poll_answer : Set := mkPoll {
  poll_ret : Z;
  revents0 : Z;     (* fds[0].revents: stdin *)
  revents1 : Z      (* fds[1].revents: the IMU *)
}.

Record world : Type := mkWorld {
  board_init_answers : list Z;
  open_answers : list Z;
  ioctl_answers : list (Z * Z);                          (* ret, errno *)
  imu_reads : list (Z * list cxd5602pwbimu_data_t);      (* ret, samples stored *)
  polls : list poll_answer;
  stdin_reads : list (option Z);                         (* the byte stored, if any *)
  stack_garbage : Z;       (* what an uninitialised [int] happens to hold *)
  errno : Z;
  g_data : list cxd5602pwbimu_data_t;
  stdout : string;
  calls : list syscall
}.

Inductive run (A : Type) : Type :=
| Done (a : A) (w : world)
| Blocked (w : world).
Arguments Done {A} a w.
Arguments Blocked {A} w.

Definition M (A : Type) : Type := world -> run A.

Definition ret {A} (a : A) : M A := fun w => Done a w.

Definition bind {A B} (m : M A) (k : A -> M B) : M B :=
  fun w => match m w with
           | Done a w' => k a w'
           | Blocked w' => Blocked w'
           end.

Notation "x <- m ;; k" := (bind m (fun x => k))
  (at level 61, m at next level, right associativity).
Notation "m ;;; k" := (bind m (fun _ => k))
  (at level 61, right associativity).

Definition log_call (c : syscall) (w : world) : world :=
  mkWorld (board_init_answers w) (open_answers w) (ioctl_answers w)
          (imu_reads w) (polls w) (stdin_reads w) (stack_garbage w)
          (errno w) (g_data w) (stdout w) (calls w ++ [c]).

Definition printf (text : string) : M unit :=
  fun w => Done tt
    (mkWorld (board_init_answers w) (open_answers w) (ioctl_answers w)
             (imu_reads w) (polls w) (stdin_reads w) (stack_garbage w)
             (errno w) (g_data w) (stdout w ++ text)%string (calls w)).

Definition Serial_begin (baud : Z) : M unit :=
  fun w => Done tt (log_call (SerialBegin baud) w).

Definition board_cxd5602pwbimu_initialize (bus : Z) : M Z :=
  fun w =>
    let w := log_call (BoardInitialize bus) w in
    match board_init_answers w with
    | [] => Blocked w
    | r :: rest =>
        Done r (mkWorld rest (open_answers w) (ioctl_answers w)
                  (imu_reads w) (polls w) (stdin_reads w) (stack_garbage w)
                  (errno w) (g_data w) (stdout w) (calls w))
    end.

Definition open (path : string) : M Z :=
  fun w =>
    let w := log_call (Open path) w in
    match open_answers w with
    | [] => Blocked w
    | r :: rest =>
        Done r (mkWorld (board_init_answers w) rest (ioctl_answers w)
                  (imu_reads w) (polls w) (stdin_reads w) (stack_garbage w)
                  (errno w) (g_data w) (stdout w) (calls w))
    end.

Definition ioctl (fd : Z) (req : ioctl_request) (arg : ioctl_arg) : M Z :=
  fun w =>
    let w := log_call (Ioctl fd req arg) w in
    match ioctl_answers w with
    | [] => Blocked w
    | (r, e) :: rest =>
        Done r (mkWorld (board_init_answers w) (open_answers w) rest
                  (imu_reads w) (polls w) (stdin_reads w) (stack_garbage w)
                  (if r =? 0 then errno w else e) (g_data w) (stdout w)
                  (calls w))
    end.

(** [read(fd, g_data, nbytes)]: the samples the driver stores overwrite the
    front of [g_data]. *)
Definition read_imu (fd : Z) (nbytes : Z) : M Z :=
  fun w =>
    let w := log_call (ReadImu fd nbytes) w in
    match imu_reads w with
    | [] => Blocked w
    | (r, stored) :: rest =>
        Done r (mkWorld (board_init_answers w) (open_answers w)
                  (ioctl_answers w) rest (polls w) (stdin_reads w)
                  (stack_garbage w) (errno w)
                  (stored ++ skipn (List.length stored) (g_data w))
                  (stdout w) (calls w))
    end.

Definition poll (timeout_ms : Z) : M poll_answer :=
  fun w =>
    let w := log_call (Poll timeout_ms) w in
    match polls w with
    | [] => Blocked w
    | p :: rest =>
        Done p (mkWorld (board_init_answers w) (open_answers w)
                  (ioctl_answers w) (imu_reads w) rest (stdin_reads w)
                  (stack_garbage w) (errno w) (g_data w) (stdout w)
                  (calls w))
    end.

(** [read(fds[0].fd, &c, 1)]: one byte stored into the lowest-addressed byte
    of the [int] (the low byte, the target being little-endian); the other
    three keep what they held. *)
Definition read_stdin_into (c : Z) : M Z :=
  fun w =>
    let w := log_call ReadStdin w in
    match stdin_reads w with
    | [] => Blocked w
    | b :: rest =>
        let c' := match b with
                  | Some byte => to_int (Z.lor (Z.land c (Z.lnot 255)) byte)
                  | None => c
                  end in
        Done c' (mkWorld (board_init_answers w) (open_answers w)
                   (ioctl_answers w) (imu_reads w) (polls w) rest
                   (stack_garbage w) (errno w) (g_data w) (stdout w)
                   (calls w))
    end.

Definition fwrite (fp : Z) (dat : list cxd5602pwbimu_data_t) : M unit :=
  fun w => Done tt (log_call (Fwrite fp dat) w).

Definition get_g_data : M (list cxd5602pwbimu_data_t) :=
  fun w => Done (g_data w) w.
Definition get_errno : M Z := fun w => Done (errno w) w.
Definition uninitialised_int : M Z := fun w => Done (stack_garbage w) w.

(** *** [printf] conversions *)

Definition nl : string := String "010"%char EmptyString.

Definition hex_digit (d : Z) : ascii :=
  match d with
  | 0 => "0" | 1 => "1" | 2 => "2" | 3 => "3" | 4 => "4" | 5 => "5"
  | 6 => "6" | 7 => "7" | 8 => "8" | 9 => "9" | 10 => "a" | 11 => "b"
  | 12 => "c" | 13 => "d" | 14 => "e" | _ => "f"
  end%char.

(** [%08x] of a 32-bit unsigned value: its eight nibbles, high to low. *)
Definition fmt_08x (u : Z) : string :=
  string_of_list_ascii
    (map (fun k => hex_digit (Z.land (Z.shiftr u (4 * k)) 15))
         [7; 6; 5; 4; 3; 2; 1; 0]).

(** [%d]. *)
Definition fmt_d (z : Z) : string := NilZero.string_of_int (Z.to_int z).

(** *** The functions of the sketch *)

Definition start_sensing (fd rate adrange gdrange nfifos : Z) : M Z :=
  r <- ioctl fd SNIOC_SSAMPRATE (ArgInt rate) ;;
  if negb (r =? 0) then
    e <- get_errno ;;
    printf ("ERROR: Set sampling rate failed. " ++ fmt_d e ++ nl) ;;;
    ret 1
  else
  r <- ioctl fd SNIOC_SDRANGE (ArgRange adrange gdrange) ;;
  if negb (r =? 0) then
    e <- get_errno ;;
    printf ("ERROR: Set dynamic range failed. " ++ fmt_d e ++ nl) ;;;
    ret 1
  else
  r <- ioctl fd SNIOC_SFIFOTHRESH (ArgInt nfifos) ;;
  if negb (r =? 0) then
    e <- get_errno ;;
    printf ("ERROR: Set sampling rate failed. " ++ fmt_d e ++ nl) ;;;
    ret 1
  else
  r <- ioctl fd SNIOC_ENABLE (ArgInt 1) ;;
  if negb (r =? 0) then
    e <- get_errno ;;
    printf ("ERROR: Enable failed. " ++ fmt_d e ++ nl) ;;;
    ret 1
  else
  ret 0.

(** The value of [cnt] when the [while] of [drop_50msdata] is entered.  The
    division is C's, truncating; [nfifo] is not zero in any call. *)
Definition drop_count (samprate nfifo : Z) : Z :=
  let cnt := Z.quot samprate 20 in
  let cnt :=
    to_int (Z.quot (to_int (to_int (cnt + nfifo) - 1)) nfifo * nfifo) in
  if cnt =? 0 then nfifo else cnt.

(** [while (cnt) { read(...); cnt -= nfifo; }]: what [read] returns is not
    looked at. *)
Fixpoint drop_loop (fuel : nat) (fd cnt nfifo : Z) : M unit :=
  match fuel with
  | O => fun w => Blocked w
  | S fuel' =>
      if cnt =? 0 then ret tt
      else
        read_imu fd (to_size_t (sizeof_data * nfifo)) ;;;
        drop_loop fuel' fd (to_int (cnt - nfifo)) nfifo
  end.

(** Every turn of the loop takes one answer of the driver, so one turn more
    than there are answers is fuel enough. *)
Definition drop_50msdata (fd samprate nfifo : Z) : M Z :=
  fun w =>
    (drop_loop (S (List.length (imu_reads w))) fd
               (drop_count samprate nfifo) nfifo ;;;
     ret 0) w.

Inductive logfunc_t : Set := fn_log2filebin | fn_log2uart.

Definition logfunc_eqb (f g : logfunc_t) : bool :=
  match f, g with
  | fn_log2filebin, fn_log2filebin | fn_log2uart, fn_log2uart => true
  | _, _ => false
  end.

Definition log2filebin (dat : list cxd5602pwbimu_data_t) (num : Z) (arg : Z)
    : M Z :=
  fwrite arg (firstn (Z.to_nat num) dat) ;;;
  ret 0.

(** The line one sample is printed as. *)
Definition uart_line (d : cxd5602pwbimu_data_t) : string :=
  (fmt_08x (timestamp d) ++ "," ++ fmt_08x (f32_to_bits (temp d)) ++ ","
   ++ fmt_08x (f32_to_bits (gx d)) ++ "," ++ fmt_08x (f32_to_bits (gy d))
   ++ "," ++ fmt_08x (f32_to_bits (gz d)) ++ ","
   ++ fmt_08x (f32_to_bits (ax d)) ++ "," ++ fmt_08x (f32_to_bits (ay d))
   ++ "," ++ fmt_08x (f32_to_bits (az d)) ++ nl)%string.

(** The text a block of samples is printed as. *)
Fixpoint uart_text (dat : list cxd5602pwbimu_data_t) : string :=
  match dat with
  | [] => EmptyString
  | d :: rest => (uart_line d ++ uart_text rest)%string
  end.

Fixpoint log2uart_each (dat : list cxd5602pwbimu_data_t) : M unit :=
  match dat with
  | [] => ret tt
  | d :: rest => printf (uart_line d) ;;; log2uart_each rest
  end.

Definition log2uart (dat : list cxd5602pwbimu_data_t) (num : Z) (arg : Z)
    : M Z :=
  log2uart_each (firstn (Z.to_nat num) dat) ;;;
  ret 0.

Definition call_logfunc (func : logfunc_t) :
    list cxd5602pwbimu_data_t -> Z -> Z -> M Z :=
  match func with
  | fn_log2filebin => log2filebin
  | fn_log2uart => log2uart
  end.

(** The [while (1)] of [dump_data], [c] carried from turn to turn. *)
Fixpoint dump_loop (fuel : nat) (fd nfifo disp : Z) (func : logfunc_t)
    (arg : Z) (c : Z) : M Z :=
  match fuel with
  | O => fun w => Blocked w
  | S fuel' =>
      p <- poll 1000 ;;
      if poll_ret p <=? 0 then
        printf ("Poll error" ++ nl) ;;;
        ret (-1)
      else
        returned <-
          (if negb (Z.land (revents1 p) POLLIN =? 0) then
             r <- read_imu fd (to_size_t (sizeof_data * nfifo)) ;;
             if to_size_t r =? to_size_t (sizeof_data * nfifo) then
               g <- get_g_data ;;
               call_logfunc func g nfifo arg ;;;
               (if negb (disp =? 0) && negb (logfunc_eqb func fn_log2uart)
                then
                  g' <- get_g_data ;;
                  log2uart g' nfifo 0 ;;;
                  ret None
                else ret None)
             else
               printf ("Read error : " ++ fmt_d r ++ nl) ;;;
               ret (Some (-1))
           else ret None) ;;
        match returned with
        | Some v => ret v
        | None =>
            if negb (Z.land (revents0 p) POLLIN =? 0) then
              c' <- read_stdin_into c ;;
              if c' =? 113 (* 'q' *) then ret 0
              else dump_loop fuel' fd nfifo disp func arg c'
            else dump_loop fuel' fd nfifo disp func arg c
        end
  end.

(** Every turn takes one answer of [poll]. *)
Definition dump_data (fd nfifo disp : Z) (func : logfunc_t) (arg : Z)
    : M Z :=
  fun w =>
    (c <- uninitialised_int ;;
     dump_loop (S (List.length (polls w))) fd nfifo disp func arg c) w.

Definition SPACE__ : string := "                          ".

Definition print_help : M unit :=
  printf ("Usage: nsh> pwbimu_logger ([-s] <rate>) ([-a] <acc range>) "
          ++ "([-g] <gyro range>) ([-f] <fifo num>) ([-o] <out dev>) "
          ++ "([-d]) ([-h])" ++ nl) ;;;
  printf (SPACE__ ++ "-s: Sampling Rate 1920, 960, 480, 240, 120, 60, 30, 15"
          ++ nl
          ++ SPACE__ ++ "-a: Accel Range 16, 8, 4, 2" ++ nl
          ++ SPACE__ ++ "-g: Gyro Range 4000, 2000, 1000, 500, 250, 125" ++ nl
          ++ SPACE__ ++ "-f: Fifo size 4, 3, 2, 1" ++ nl
          ++ SPACE__ ++ "-o: Output Device 'uart', 'net', "
          ++ "/path/to/file.bin, /path/to/file.txt" ++ nl
          ++ SPACE__ ++ "-d: Force print the data to UART" ++ nl
          ++ SPACE__ ++ "-h: Show this help" ++ nl).

(** [setup()]; it takes no argument.  [fp] stays [NULL], so [end_app] has
    nothing to close. *)
Definition setup : M unit :=
  let samprate := 960 in
  let arange := 16 in
  let grange := 500 in
  let fifo := 4 in
  let disp := 0 in
  let outdev := "uart" in
  let logopt := 0 in
  Serial_begin 921600 ;;;
  let logfunc := fn_log2uart in
  r <- board_cxd5602pwbimu_initialize 5 ;;
  if r <? 0 then
    printf ("ERROR: Failed to initialize CXD5602PWBIMU." ++ nl)
  else
  devfd <- open CXD5602PWBIMU_DEVPATH ;;
  if devfd <? 0 then
    printf ("Could not open the device:" ++ fmt_d devfd ++ nl)
  else
  printf ("Start IMU Data logging: "
          ++ "Rate:" ++ fmt_d samprate ++ " Accel DRagne:" ++ fmt_d arange
          ++ " Gyro DRange:" ++ fmt_d grange ++ " Fifo:" ++ fmt_d fifo
          ++ " Outdev:" ++ outdev ++ nl) ;;;
  r <- start_sensing devfd samprate arange grange fifo ;;
  if r <? 0 then
    printf ("Sensor start error" ++ nl)
  else
  drop_50msdata devfd samprate fifo ;;;
  dump_data devfd fifo disp logfunc logopt ;;;
  ret tt.

(** The world after one call of [read] on the IMU, and after [m] of them. *)
Definition after_read (fd nbytes : Z) (w : world) : world :=
  match read_imu fd nbytes w with
  | Done _ w' => w'
  | Blocked w' => w'
  end.

Fixpoint after_reads (fd nbytes : Z) (m : nat) (w : world) : world :=
  match m with
  | O => w
  | S m' => after_reads fd nbytes m' (after_read fd nbytes w)
  end.

(** A run to try the sketch on: the board and the device open, every
    [ioctl] succeeds, the driver delivers thirteen blocks of four samples,
    numbered 0 to 51 by their timestamps, [poll] reports the IMU readable
    once and then times out. *)
Definition numbered (i : nat) : cxd5602pwbimu_data_t :=
  mkData (Z.of_nat i) (f32_from_bits 0) (f32_from_bits 0) (f32_from_bits 0)
         (f32_from_bits 0) (f32_from_bits 0) (f32_from_bits 0)
         (f32_from_bits 0).

Definition numbered_block (j : nat) : Z * list cxd5602pwbimu_data_t :=
  (128, map (fun i => numbered (4 * j + i)) (seq 0 4)).

Definition example_world : world :=
  mkWorld [0] [3] [(0, 0); (0, 0); (0, 0); (0, 0)]
          (map numbered_block (seq 0 13))
          [mkPoll 1 0 1; mkPoll 0 0 0] [] 0 0 [] EmptyString [].

Definition start_line : string :=
  "Start IMU Data logging: Rate:960 Accel DRagne:16 Gyro DRange:500 Fifo:4 Outdev:uart"
  ++ nl.

(** Where a run ends, returned or not. *)
Definition final_world {A} (r : run A) : world :=
  match r with
  | Done _ w => w
  | Blocked w => w
  end.

(** The calls a run with the configuration written into [setup] may make:
    the serial port at 921600 baud, the IMU on bus 5 at its device path,
    rate 960, ranges 16 and 500, FIFO threshold 4, reads of four samples
    (128 bytes), [poll] with a second's timeout, the keyboard; no write to
    a file. *)
Definition fixed_config_call (c : syscall) : bool :=
  match c with
  | SerialBegin baud => baud =? 921600
  | BoardInitialize bus => bus =? 5
  | Open path => String.eqb path CXD5602PWBIMU_DEVPATH
  | Ioctl _ SNIOC_SSAMPRATE (ArgInt v) => v =? 960
  | Ioctl _ SNIOC_SDRANGE (ArgRange accel gyro) =>
      (accel =? 16) && (gyro =? 500)
  | Ioctl _ SNIOC_SFIFOTHRESH (ArgInt v) => v =? 4
  | Ioctl _ SNIOC_ENABLE (ArgInt v) => v =? 1
  | Ioctl _ _ _ => false
  | ReadImu _ nbytes => nbytes =? 128
  | Poll timeout_ms => timeout_ms =? 1000
  | ReadStdin => true
  | Fwrite _ _ => false
  end.

Definition fixed_config_log (w : world) : bool :=
  forallb fixed_config_call (calls w).

(** What [print_help] prints. *)
Definition help_text : string :=
  stdout (final_world
            (print_help (mkWorld [] [] [] [] [] [] 0 0 [] EmptyString []))).

Definition mentions (text flag : string) : bool :=
  match String.index 0 flag text with
  | Some _ => true
  | None => false
  end.

(** A computation keeps the log within the fixed configuration. *)
Definition keeps {A} (m : M A) : Prop :=
  forall w, fixed_config_log w = true ->
            fixed_config_log (final_world (m w)) = true.

(** A computation leaves the queue of [poll] answers as it was. *)
Definition same_polls {A} (m : M A) : Prop :=
  forall w, polls (final_world (m w)) = polls w.

End Logger.

(* ------------------------------------------------------------------------- *)
(** ** The text variant on the receiving side *)

Module TextDecoder.

Import Receiver.

(** The bytes a printed text travels as. *)
Definition bytes_of_string (s : string) : list Z :=
  map (fun c => Z.of_nat (nat_of_ascii c)) (list_ascii_of_string s).

Definition COMMA : Z := 44.
Definition CR : Z := 13.
Definition LF : Z := 10.

(** Modelled from the spec: the digit of an "8-hex-digit ASCII field"; the
    receiver's text parser is not among the repository's files.  Both
    letter cases are digits: the transmitter prints lower case, the
    specification's example line is upper case. *)
Definition hex_value (b : Z) : option Z :=
  if (48 <=? b) && (b <=? 57) then Some (b - 48)
  else if (97 <=? b) && (b <=? 102) then Some (b - 87)
  else if (65 <=? b) && (b <=? 70) then Some (b - 55)
  else None.

(** Modelled from the spec: the number a run of hex digits writes, most
    significant digit first. *)
Fixpoint hex_fold (acc : Z) (field : list Z) : option Z :=
  match field with
  | [] => Some acc
  | b :: rest =>
      match hex_value b with
      | Some d => hex_fold (acc * 16 + d) rest
      | None => None
      end
  end.

(** Modelled from the spec: a field "decodes as an unsigned 32-bit integer"
    when it is exactly eight hex digits. *)
Definition parse_hex8 (field : list Z) : option Z :=
  if (List.length field =? 8)%nat then hex_fold 0 field else None.

(** Modelled from the spec: "comma-separated" fields. *)
Fixpoint split_fields (line : list Z) : list (list Z) :=
  match line with
  | [] => [[]]
  | b :: rest =>
      if b =? COMMA then [] :: split_fields rest
      else
        match split_fields rest with
        | f :: fs => (b :: f) :: fs
        | [] => [[b]]
        end
  end.

(** Modelled from the spec: "eight comma-separated 8-hex-digit ASCII
    fields.  Field 1 decodes as an unsigned 32-bit integer (timestamp);
    fields 2-8 decode as unsigned 32-bit integers and are then
    bit-reinterpreted as IEEE-754 single-precision floats (temp, gx, gy, gz,
    ax, ay, az)"; [now] is the system timestamp "assigned at decode time". *)
Definition decode_text_line (line : list Z) (now : Z) : option SensorData :=
  match map parse_hex8 (split_fields line) with
  | [Some ts; Some t; Some x; Some y; Some z; Some a; Some b; Some c] =>
      Some (mkSensorData ts (f32_from_bits t) (f32_from_bits x)
              (f32_from_bits y) (f32_from_bits z) (f32_from_bits a)
              (f32_from_bits b) (f32_from_bits c) now)
  | _ => None
  end.


(** The sample a transmitted record is received as. *)
Definition sample_of (d : Logger.cxd5602pwbimu_data_t) (now : Z)
    : SensorData :=
  mkSensorData (Logger.timestamp d) (Logger.temp d) (Logger.gx d)
    (Logger.gy d) (Logger.gz d) (Logger.ax d) (Logger.ay d) (Logger.az d)
    now.

(** The fields of a transmitted record are 32-bit words. *)
Definition data_u32 (d : Logger.cxd5602pwbimu_data_t) : Prop :=
  u32 (Logger.timestamp d) /\ u32 (f32_to_bits (Logger.temp d))
  /\ u32 (f32_to_bits (Logger.gx d)) /\ u32 (f32_to_bits (Logger.gy d))
  /\ u32 (f32_to_bits (Logger.gz d)) /\ u32 (f32_to_bits (Logger.ax d))
  /\ u32 (f32_to_bits (Logger.ay d)) /\ u32 (f32_to_bits (Logger.az d)).



(** The code of a character. *)
Definition code (c : ascii) : Z := Z.of_nat (nat_of_ascii c).

(** Hex digit [k] of a word, counted from the low end. *)
Definition nibble (u k : Z) : Z := (u / 2 ^ (4 * k)) mod 16.

(** The eight bytes [%08x] prints a word as. *)
Definition hex8 (u : Z) : list Z :=
  map (fun k => code (Logger.hex_digit (nibble u k))) [7; 6; 5; 4; 3; 2; 1; 0].

(** The line a record is printed as, without its line end. *)
Definition line_body (d : Logger.cxd5602pwbimu_data_t) : list Z :=
  hex8 (Logger.timestamp d) ++ COMMA :: hex8 (f32_to_bits (Logger.temp d))
  ++ COMMA :: hex8 (f32_to_bits (Logger.gx d))
  ++ COMMA :: hex8 (f32_to_bits (Logger.gy d))
  ++ COMMA :: hex8 (f32_to_bits (Logger.gz d))
  ++ COMMA :: hex8 (f32_to_bits (Logger.ax d))
  ++ COMMA :: hex8 (f32_to_bits (Logger.ay d))
  ++ COMMA :: hex8 (f32_to_bits (Logger.az d)).

End TextDecoder.

(* ------------------------------------------------------------------------- *)
(** ** The scenarios of the specification, and worlds to run the sketch in *)

Module Scenario.

Import Receiver.
Import Logger.

(** The checksum and the clock the examples run with. *)
Definition crc : list Z -> Z := Crc8.calculate_crc8.
Definition clock (k : nat) : Z := 1000 + Z.of_nat k.

Definition scenario_frame : list Z := valid_frame crc scenario_payload.

Definition scenario_sample (now : Z) : Receiver.SensorData :=
  Receiver.mkSensorData 300 ONE ONE ONE ONE ONE ONE ONE now.

(** The scenario frame with its checksum byte (A8) flipped to 57. *)
Definition bad_crc_frame : list Z := frame_bytes scenario_payload 87.

(** The record of the specification's text scenario. *)
Definition scenario_record : cxd5602pwbimu_data_t :=
  mkData 291 Receiver.TEN Receiver.ONE Receiver.ONE Receiver.ONE
         Receiver.ONE Receiver.ONE Receiver.ONE.

(** A world in which the first [poll] times out while the IMU has a block
    ready and a later [poll] would say so. *)
Definition timeout_world : world :=
  mkWorld [] [] [] [numbered_block 0] [mkPoll 0 0 0; mkPoll 1 0 1] [] 0 0 []
          EmptyString [].

(** A world in which the IMU is readable and the [read] fails. *)
Definition read_error_world : world :=
  mkWorld [] [] [] [(-1, []); numbered_block 0] [mkPoll 1 0 1; mkPoll 1 0 1]
          [] 0 0 [] EmptyString [].

End Scenario.

(* ------------------------------------------------------------------------- *)
(** ** Received blocks, piece by piece *)

Module Pieces.

Import Receiver.

(** A marker, the byte AA followed by the byte 55, somewhere in a run of
    bytes. *)
Fixpoint has_marker (l : list Z) : bool :=
  match l with
  | a :: (b :: _) as rest => ((a =? 170) && (b =? 85)) || has_marker rest
  | _ => false
  end.

(** What a received block is made of: bytes that are no frame, a frame
    whose checksum byte is wrong, a valid frame. *)
Inductive piece : Set :=
| Junk (bytes : list Z)
| Bad (payload : list Z) (c : Z)
| Good (payload : list Z).

Definition piece_bytes (crc : list Z -> Z) (p : piece) : list Z :=
  match p with
  | Junk bytes => bytes
  | Bad payload c => frame_bytes payload c
  | Good payload => valid_frame crc payload
  end.

Definition pieces_bytes (crc : list Z -> Z) (ps : list piece) : list Z :=
  List.concat (map (piece_bytes crc) ps).

Fixpoint good_payloads (ps : list piece) : list (list Z) :=
  match ps with
  | [] => []
  | Good payload :: rest => payload :: good_payloads rest
  | _ :: rest => good_payloads rest
  end.

(** The pieces are what they are called: no marker in the junk, nor across
    its end; a bad frame's checksum byte is not its payload's checksum, and
    past its own marker it holds no other, nor across its end; payloads are
    32 bytes. *)
Fixpoint well_cut (crc : list Z -> Z) (ps : list piece) : Prop :=
  match ps with
  | [] => True
  | Junk bytes :: rest =>
      has_marker (bytes ++ [hd 0 (pieces_bytes crc rest)]) = false
      /\ well_cut crc rest
  | Bad payload c :: rest =>
      List.length payload = 32%nat
      /\ crc payload <> c
      /\ has_marker (85 :: payload ++ [c; hd 0 (pieces_bytes crc rest)])
         = false
      /\ well_cut crc rest
  | Good payload :: rest =>
      List.length payload = 32%nat /\ well_cut crc rest
  end.

(** A sample stands for a frame of the buffer: a position before the end of
    the bytes received where the marker is, 35 bytes that the buffer holds
    from there, the last of them the checksum of the 32 before it. *)
Definition frame_at (crc : list Z -> Z) (buffer : list Z) (n : nat)
    (d : SensorData) : Prop :=
  exists i,
    (i + 1 < n)%nat /\ (i + 35 <= List.length buffer)%nat
    /\ at_ buffer i = 170 /\ at_ buffer (i + 1) = 85
    /\ crc (slice buffer (i + 2) (i + 34)) = at_ buffer (i + 34)
    /\ d = decode_payload (slice buffer (i + 2) (i + 34))
                          (system_timestamp d).

End Pieces.

(* ------------------------------------------------------------------------- *)
(** ** What [start_sensing] asks of the driver, and what it prints *)

Module Config.

Import Logger.

(** The four calls, in the order of the source. *)
Definition config_calls (fd rate adrange gdrange nfifos : Z) : list syscall :=
  [Ioctl fd SNIOC_SSAMPRATE (ArgInt rate);
   Ioctl fd SNIOC_SDRANGE (ArgRange adrange gdrange);
   Ioctl fd SNIOC_SFIFOTHRESH (ArgInt nfifos);
   Ioctl fd SNIOC_ENABLE (ArgInt 1)].

(** The message printed when the call of that rank fails; the third is the
    first one over again. *)
Definition config_errors : list string :=
  ["ERROR: Set sampling rate failed. "; "ERROR: Set dynamic range failed. ";
   "ERROR: Set sampling rate failed. "; "ERROR: Enable failed. "].

(** The characters a printed record is made of. *)
Definition uart_char (c : ascii) : bool :=
  match String.index 0 (String c EmptyString) "0123456789abcdef," with
  | Some _ => true
  | None => Ascii.eqb c "010"%char
  end.

Fixpoint all_chars (f : ascii -> bool) (s : string) : bool :=
  match s with
  | EmptyString => true
  | String c rest => f c && all_chars f rest
  end.

(** How a run of the capture loop can have ended. *)
Definition capture_end (code : Z) (w' : world) : Prop :=
  (code = 0 /\ exists cs, calls w' = cs ++ [ReadStdin])
  \/ (code = -1
      /\ ((exists s, stdout w' = (s ++ "Poll error" ++ nl)%string)
          \/ exists s x,
              stdout w' = (s ++ "Read error : " ++ fmt_d x ++ nl)%string)).

End Config.

(* ------------------------------------------------------------------------- *)
(** ** More blocks and worlds to run the code on *)

Module MoreScenario.

Import Receiver.
Import Logger.
Import Pieces.
Import Scenario.

(** Junk that ends in AA, the scenario frame, the same frame with a wrong
    checksum byte, the frame once more, junk. *)
Definition example_pieces : list piece :=
  [Junk [1; 2; 170]; Good scenario_payload; Bad scenario_payload 87;
   Good scenario_payload; Junk [3; 85; 170]].

(** The driver accepts rate and range and refuses the FIFO threshold with
    [errno] 22. *)
Definition refusing_world : world :=
  mkWorld [] [] [(0, 0); (0, 0); (-1, 22); (0, 0)] [] [] [] 0 0 []
          EmptyString [].

(** The board does not initialise; the device does not open. *)
Definition no_board_world : world :=
  mkWorld [-1] [3] [] [numbered_block 0] [] [] 0 0 [] EmptyString [].

Definition no_device_world : world :=
  mkWorld [0] [-2] [(0, 0)] [numbered_block 0] [] [] 0 0 [] EmptyString [].

(** The key [q] is pressed. *)
Definition quit_world : world :=
  mkWorld [] [] [] [] [mkPoll 1 1 0] [Some 113] 0 0 [] EmptyString [].


Definition stalled_world : world :=
  mkWorld [] [] [] [numbered_block 0; numbered_block 1] [] [] 0 0 []
          EmptyString [].

End MoreScenario.

(* ------------------------------------------------------------------------- *)
(** * Properties *)

(** ** Words and bytes *)

Module WireFacts.

Lemma u32_to_le_bytes_u8 (w : Z) : Forall u8 (u32_to_le_bytes w).
Proof.
  unfold u32_to_le_bytes, u8.
  repeat constructor; apply Z.mod_pos_bound; lia.
Qed.

Lemma u32_from_to_le_bytes (w : Z) :
  u32 w ->
  u32_from_le_bytes (w mod 256) ((w / 2 ^ 8) mod 256)
                    ((w / 2 ^ 16) mod 256) ((w / 2 ^ 24) mod 256) = w.
Proof.
  unfold u32, u32_from_le_bytes. intros Hw.
  change (2 ^ 8) with 256. change (2 ^ 16) with (256 * 256).
  change (2 ^ 24) with (256 * 256 * 256).
  change (2 ^ 32) with (256 * 256 * 256 * 256) in Hw.
  rewrite <- !Z.div_div by lia.
  pose proof (Z.div_mod w 256 ltac:(lia)) as H0.
  pose proof (Z.div_mod (w / 256) 256 ltac:(lia)) as H1.
  pose proof (Z.div_mod (w / 256 / 256) 256 ltac:(lia)) as H2.
  assert (H3 : 0 <= w / 256 / 256 / 256 < 256).
  { split.
    - repeat apply Z.div_pos; lia.
    - repeat (apply Z.div_lt_upper_bound; [lia|]). lia. }
  rewrite (Z.mod_small (w / 256 / 256 / 256)) by lia.
  lia.
Qed.

Lemma u32_from_le_bytes_range (b0 b1 b2 b3 : Z) :
  u8 b0 -> u8 b1 -> u8 b2 -> u8 b3 -> u32 (u32_from_le_bytes b0 b1 b2 b3).
Proof.
  unfold u8, u32, u32_from_le_bytes. lia.
Qed.

End WireFacts.

(** ** Strings *)

Module StringFacts.

Lemma append_assoc (a b c : string) :
  (a ++ (b ++ c) = (a ++ b) ++ c)%string.
Proof.
  induction a as [|x a IH]; cbn [String.append]; [reflexivity|].
  rewrite IH. reflexivity.
Qed.

Lemma append_nil_r (a : string) : (a ++ EmptyString)%string = a.
Proof.
  induction a as [|x a IH]; cbn [String.append]; [reflexivity|].
  rewrite IH. reflexivity.
Qed.

Lemma list_ascii_of_string_append (a b : string) :
  list_ascii_of_string (a ++ b) =
  list_ascii_of_string a ++ list_ascii_of_string b.
Proof.
  induction a as [|x a IH]; cbn [String.append list_ascii_of_string app];
    [reflexivity|].
  rewrite IH. reflexivity.
Qed.

End StringFacts.

(** ** The frame parser and the scan loop *)

Section ReceiverFacts.

Import Receiver.

Variable calculate_crc8 : list Z -> Z.
Variable clock : nat -> Z.

Local Abbreviation parse := (parse_binary_sensor_data calculate_crc8).
Local Abbreviation step := (scan_step calculate_crc8 clock).
Local Abbreviation loop := (scan_loop calculate_crc8 clock).
Local Abbreviation scan_all := (scan calculate_crc8 clock).
Local Abbreviation read := (read_binary_sensor_data calculate_crc8 clock).

Lemma at_app (pre l : list Z) (k : nat) :
  at_ (pre ++ l) (List.length pre + k) = at_ l k.
Proof.
  unfold at_. rewrite app_nth2 by lia. f_equal. lia.
Qed.

Lemma slice_app (pre l : list Z) (a b : nat) :
  slice (pre ++ l) (List.length pre + a) (List.length pre + b) = slice l a b.
Proof.
  unfold slice. rewrite skipn_app.
  replace (List.length pre + a - List.length pre)%nat with a by lia.
  rewrite skipn_all2 by lia. simpl. f_equal. lia.
Qed.

Lemma le_word_app (pre l : list Z) (k : nat) :
  le_word (pre ++ l) (List.length pre + k) = le_word l k.
Proof.
  unfold le_word. rewrite <- !Nat.add_assoc, !at_app. reflexivity.
Qed.

Ltac explode_payload payload H :=
  repeat (destruct payload as [|? payload]; [discriminate H|]);
  destruct payload; [|discriminate H].

(** Parsing where a frame-shaped span starts: the checksum decides. *)
Lemma parse_frame_at (pre payload post : list Z) (c now : Z) :
  List.length payload = 32%nat ->
  parse (pre ++ frame_bytes payload c ++ post) (List.length pre) now =
  if calculate_crc8 payload =? c
  then Ok (decode_payload payload now, (List.length pre + 35)%nat)
  else Err (FromReceiver (ParseError "CRC check failed")).
Proof.
  intros Hlen. unfold parse_binary_sensor_data.
  assert (Hl : (List.length (pre ++ frame_bytes payload c ++ post) <?
                List.length pre + 35)%nat = false).
  { apply Nat.ltb_ge. unfold frame_bytes.
    repeat (rewrite length_app; cbn [List.length]). lia. }
  rewrite Hl.
  rewrite !le_word_app, slice_app, !at_app.
  rewrite <- (Nat.add_0_r (List.length pre)) at 1. rewrite at_app.
  explode_payload payload Hlen.
  cbn [frame_bytes app at_ nth Z.eqb negb orb Pos.eqb Nat.add].
  unfold slice. cbn [Nat.sub skipn firstn].
  destruct (calculate_crc8 _ =? c); reflexivity.
Qed.

Lemma parse_ok_index (buffer : list Z) (i : nat) (now : Z) d j :
  parse buffer i now = Ok (d, j) -> j = (i + 35)%nat.
Proof.
  unfold parse_binary_sensor_data.
  repeat match goal with |- context [if ?b then _ else _] => destruct b end;
    intros H; inversion H; reflexivity.
Qed.

(** Every turn of the loop moves the scan position forward. *)
Lemma step_progress (buffer : list Z) (n : nat) (st : scan_state) :
  (index st < index (step buffer n st))%nat.
Proof.
  unfold scan_step.
  destruct (_ && _ && _); cbn [index]; [|lia].
  destruct (parse _ _ _) as [[d j]|e] eqn:E; cbn [index]; [|lia].
  apply parse_ok_index in E. lia.
Qed.

Lemma loop_fuel (buffer : list Z) (n : nat) :
  forall f1 f2 st,
    (n - index st <= f1)%nat -> (n - index st <= f2)%nat ->
    loop f1 buffer n st = loop f2 buffer n st.
Proof.
  induction f1 as [|f1 IH]; intros [|f2] st H1 H2; cbn [scan_loop];
    try reflexivity.
  - replace (index st <? n)%nat with false; [reflexivity|].
    symmetry. apply Nat.ltb_ge. lia.
  - replace (index st <? n)%nat with false; [reflexivity|].
    symmetry. apply Nat.ltb_ge. lia.
  - destruct (index st <? n)%nat eqn:E; [|reflexivity].
    apply Nat.ltb_lt in E.
    pose proof (step_progress buffer n st).
    apply IH; lia.
Qed.

Lemma scan_lt (buffer : list Z) (n : nat) (st : scan_state) :
  (index st < n)%nat ->
  scan_all buffer n st = scan_all buffer n (step buffer n st).
Proof.
  intros H. unfold scan.
  destruct (n - index st)%nat as [|f] eqn:E; [lia|].
  cbn [scan_loop]. apply Nat.ltb_lt in H. rewrite H. apply Nat.ltb_lt in H.
  pose proof (step_progress buffer n st).
  apply loop_fuel; lia.
Qed.

Lemma scan_ge (buffer : list Z) (n : nat) (st : scan_state) :
  (n <= index st)%nat -> scan_all buffer n st = st.
Proof.
  intros H. unfold scan.
  replace (n - index st)%nat with 0%nat by lia. reflexivity.
Qed.

(** The three ways a turn can go. *)
Lemma step_no_marker (buffer : list Z) (n : nat) (st : scan_state) :
  (index st + 1 <? n)%nat && (at_ buffer (index st) =? 170)
    && (at_ buffer (index st + 1) =? 85) = false ->
  step buffer n st = mkScan (index st + 1) (result st) (ticks st).
Proof.
  intros H. unfold scan_step. rewrite H. reflexivity.
Qed.

Lemma step_parse_err (buffer : list Z) (n : nat) (st : scan_state) e :
  parse buffer (index st) (clock (ticks st)) = Err e ->
  step buffer n st = mkScan (index st + 1) (result st) (ticks st).
Proof.
  intros H. unfold scan_step. rewrite H.
  destruct (_ && _ && _); reflexivity.
Qed.

Lemma step_parse_ok (buffer : list Z) (n : nat) (st : scan_state) d j :
  (index st + 1 < n)%nat ->
  at_ buffer (index st) = 170 -> at_ buffer (index st + 1) = 85 ->
  parse buffer (index st) (clock (ticks st)) = Ok (d, j) ->
  step buffer n st = mkScan j (result st ++ [d]) (S (ticks st)).
Proof.
  intros Hn H0 H1 H. unfold scan_step. rewrite H, H0, H1.
  apply Nat.ltb_lt in Hn. rewrite Hn. reflexivity.
Qed.

Lemma valid_frame_length (payload : list Z) :
  List.length payload = 32%nat ->
  List.length (valid_frame calculate_crc8 payload) = 35%nat.
Proof.
  intros H. unfold valid_frame, frame_bytes.
  repeat (rewrite length_app; cbn [List.length]). lia.
Qed.

Lemma frames_stream_length (payloads : list (list Z)) :
  Forall (fun p => List.length p = 32%nat) payloads ->
  List.length (frames_stream calculate_crc8 payloads) =
  (35 * List.length payloads)%nat.
Proof.
  induction 1 as [|p ps Hp _ IH]; [reflexivity|].
  unfold frames_stream in *. cbn [map List.concat List.length].
  rewrite length_app, IH, valid_frame_length by assumption. lia.
Qed.

(** A valid frame under the scan position is decoded and stepped over. *)
Lemma step_valid_frame (pre payload post : list Z) (n : nat) r t :
  List.length payload = 32%nat ->
  (List.length pre + 35 <= n)%nat ->
  step (pre ++ valid_frame calculate_crc8 payload ++ post) n
       (mkScan (List.length pre) r t) =
  mkScan (List.length pre + 35) (r ++ [decode_payload payload (clock t)])
         (S t).
Proof.
  intros Hlen Hn.
  apply step_parse_ok; cbn [index ticks].
  - lia.
  - rewrite <- (Nat.add_0_r (List.length pre)), at_app. reflexivity.
  - rewrite at_app. reflexivity.
  - unfold valid_frame. rewrite parse_frame_at by assumption.
    rewrite Z.eqb_refl. reflexivity.
Qed.

(** A run of valid frames under the scan position is decoded frame by
    frame, whatever lies before and after it in the buffer. *)
Lemma scan_frames (payloads : list (list Z)) :
  Forall (fun p => List.length p = 32%nat) payloads ->
  forall (pre post : list Z) (n : nat) r t,
    (List.length pre + 35 * List.length payloads <= n)%nat ->
    scan_all (pre ++ frames_stream calculate_crc8 payloads ++ post) n
             (mkScan (List.length pre) r t) =
    scan_all (pre ++ frames_stream calculate_crc8 payloads ++ post) n
             (mkScan (List.length pre + 35 * List.length payloads)
                     (r ++ frames_samples clock payloads t)
                     (t + List.length payloads)).
Proof.
  induction 1 as [|p ps Hp Hps IH]; intros pre post n r t Hn.
  - cbn [List.length frames_samples]. rewrite app_nil_r.
    do 2 f_equal; lia.
  - cbn [List.length] in Hn.
    unfold frames_stream. cbn [map List.concat].
    fold (frames_stream calculate_crc8 ps).
    rewrite <- app_assoc.
    rewrite scan_lt by (cbn [index]; lia).
    rewrite step_valid_frame by (assumption || lia).
    pose proof (valid_frame_length p Hp) as Hf.
    replace (pre ++ valid_frame calculate_crc8 p
                 ++ frames_stream calculate_crc8 ps ++ post)
      with ((pre ++ valid_frame calculate_crc8 p)
              ++ frames_stream calculate_crc8 ps ++ post)
      by (rewrite <- app_assoc; reflexivity).
    replace (List.length pre + 35)%nat
      with (List.length (pre ++ valid_frame calculate_crc8 p))
      by (rewrite length_app; lia).
    rewrite IH by (rewrite length_app; lia).
    rewrite length_app, Hf. cbn [List.length frames_samples].
    rewrite <- !app_assoc. cbn [app].
    f_equal. f_equal; lia.
Qed.

Lemma firstn_repeat_le (x : Z) :
  forall k m, (k <= m)%nat -> firstn k (repeat x m) = repeat x k.
Proof.
  induction k as [|k IH]; intros [|m] H; cbn [firstn repeat];
    try reflexivity; [lia|].
  rewrite IH by lia. reflexivity.
Qed.

Lemma fill_buffer_short (bytes : list Z) :
  (List.length bytes <= BUFFER_LEN)%nat ->
  fill_buffer bytes = bytes ++ repeat 0 (BUFFER_LEN - List.length bytes).
Proof.
  intros H. unfold fill_buffer.
  rewrite firstn_app, firstn_all2 by lia. f_equal.
  apply firstn_repeat_le. lia.
Qed.

(** One call on a received block that fits the buffer. *)
Lemma read_scan (bytes : list Z) (t : nat) :
  (0 < List.length bytes <= BUFFER_LEN)%nat ->
  read (ReadOk bytes) t =
  let st := scan_all (bytes ++ repeat 0 (BUFFER_LEN - List.length bytes))
                     (List.length bytes) (mkScan 0 [] t) in
  (Ok (result st), ticks st).
Proof.
  intros H. unfold read_binary_sensor_data.
  rewrite fill_buffer_short by lia.
  rewrite Nat.min_l by lia.
  destruct (List.length bytes =? 0)%nat eqn:E.
  - apply Nat.eqb_eq in E. lia.
  - unfold scan. cbn [index]. rewrite Nat.sub_0_r. reflexivity.
Qed.

Lemma frames_samples_app (ps qs : list (list Z)) (t : nat) :
  frames_samples clock (ps ++ qs) t =
  frames_samples clock ps t ++ frames_samples clock qs (t + List.length ps).
Proof.
  revert t. induction ps as [|p ps IH]; intros t; cbn [app frames_samples List.length].
  - rewrite Nat.add_0_r. reflexivity.
  - rewrite IH. do 3 f_equal. lia.
Qed.

(** A block made of whole valid frames decodes to their samples. *)
Lemma read_frames (payloads : list (list Z)) (t : nat) :
  Forall (fun p => List.length p = 32%nat) payloads ->
  (35 * List.length payloads <= BUFFER_LEN)%nat ->
  read (ReadOk (frames_stream calculate_crc8 payloads)) t =
  (Ok (frames_samples clock payloads t), (t + List.length payloads)%nat).
Proof.
  intros Hp Hn.
  destruct payloads as [|p ps].
  - cbn. rewrite Nat.add_0_r. reflexivity.
  - pose proof (frames_stream_length _ Hp) as Hl.
    rewrite read_scan by (rewrite Hl; cbn [List.length] in *; lia).
    cbv zeta.
    pose proof (scan_frames (p :: ps) Hp [] (repeat 0 (BUFFER_LEN - List.length (frames_stream calculate_crc8 (p :: ps))))
                  (List.length (frames_stream calculate_crc8 (p :: ps))) [] t)
      as Hs.
    cbn [app List.length Nat.add] in Hs. cbn [app].
    rewrite Hs by (rewrite Hl; cbn [List.length]; lia).
    rewrite scan_ge by (cbn [index]; rewrite Hl; cbn [List.length]; lia).
    reflexivity.
Qed.

Lemma payload_bytes_length (ts t x y z a b c : Z) :
  List.length (payload_bytes ts t x y z a b c) = 32%nat.
Proof. reflexivity. Qed.

Lemma decode_payload_bytes (ts t x y z a b c now : Z) :
  u32 ts -> u32 t -> u32 x -> u32 y -> u32 z -> u32 a -> u32 b -> u32 c ->
  decode_payload (payload_bytes ts t x y z a b c) now =
  mkSensorData ts (f32_from_bits t) (f32_from_bits x) (f32_from_bits y)
    (f32_from_bits z) (f32_from_bits a) (f32_from_bits b) (f32_from_bits c)
    now.
Proof.
  intros. unfold decode_payload, payload_bytes, u32_to_le_bytes, le_word.
  cbn [app at_ nth Nat.add].
  rewrite !WireFacts.u32_from_to_le_bytes by assumption. reflexivity.
Qed.

(** A byte that is followed by the first marker byte is stepped over. *)
Lemma step_junk (pre rest : list Z) (b : Z) (n : nat) r t :
  step (pre ++ b :: 170 :: rest) n (mkScan (List.length pre) r t) =
  mkScan (List.length pre + 1) r t.
Proof.
  apply step_no_marker. cbn [index].
  rewrite at_app. cbn [at_ nth Z.eqb]. rewrite andb_false_r. reflexivity.
Qed.

End ReceiverFacts.

(** ** The checksum *)

Section Crc8Facts.

Import Crc8.

Lemma u8_land (x : Z) : u8 x <-> Z.land x 255 = x.
Proof.
  unfold u8. change 255 with (Z.ones 8). rewrite Z.land_ones by lia.
  change (2 ^ 8) with 256. split; intros H.
  - apply Z.mod_small; lia.
  - rewrite <- H. apply Z.mod_pos_bound. lia.
Qed.

Lemma land_lxor (a b c : Z) :
  Z.land (Z.lxor a b) c = Z.lxor (Z.land a c) (Z.land b c).
Proof.
  apply Z.bits_inj'. intros n _.
  rewrite Z.land_spec, !Z.lxor_spec, !Z.land_spec.
  destruct (Z.testbit a n), (Z.testbit b n), (Z.testbit c n); reflexivity.
Qed.

Lemma lxor_u8 (a b : Z) : u8 a -> u8 b -> u8 (Z.lxor a b).
Proof.
  rewrite !u8_land. intros Ha Hb.
  rewrite land_lxor, Ha, Hb. reflexivity.
Qed.

Lemma lxor_inj_r (a b x : Z) : Z.lxor a x = Z.lxor b x -> a = b.
Proof.
  intros H. apply (f_equal (fun v => Z.lxor v x)) in H.
  rewrite !Z.lxor_assoc, Z.lxor_nilpotent, !Z.lxor_0_r in H. exact H.
Qed.

Lemma lxor_inj_l (a x y : Z) : Z.lxor a x = Z.lxor a y -> x = y.
Proof.
  rewrite (Z.lxor_comm a x), (Z.lxor_comm a y). apply lxor_inj_r.
Qed.

Lemma shifted_mod (c : Z) : Z.land (Z.shiftl c 1) 255 = (2 * c) mod 256.
Proof.
  change 255 with (Z.ones 8). rewrite Z.land_ones, Z.shiftl_mul_pow2 by lia.
  f_equal. lia.
Qed.

Lemma top_bit (c : Z) : u8 c -> Z.testbit c 7 = (128 <=? c).
Proof.
  unfold u8. intros H.
  rewrite Z.testbit_odd, Z.shiftr_div_pow2 by lia. change (2 ^ 7) with 128.
  destruct (128 <=? c) eqn:E.
  - apply Z.leb_le in E.
    replace (c / 128) with 1; [reflexivity|].
    apply Z.div_unique with (r := c - 128); lia.
  - apply Z.leb_gt in E. rewrite Z.div_small by lia. reflexivity.
Qed.

Variable poly : Z.
Hypothesis poly_u8 : u8 poly.
Hypothesis poly_odd : Z.odd poly = true.

Lemma crc8_shift_u8 (c : Z) : u8 (crc8_shift poly c).
Proof.
  unfold crc8_shift. cbv zeta.
  assert (Hs : u8 (Z.land (Z.shiftl c 1) 255)).
  { rewrite shifted_mod. apply Z.mod_pos_bound. lia. }
  destruct (Z.testbit c 7); [apply lxor_u8|]; assumption.
Qed.

(** With a one as the polynomial's constant term the bit shifted out can be
    read back from the result, so one shift loses nothing. *)
Lemma crc8_shift_inj (c c' : Z) :
  u8 c -> u8 c' -> crc8_shift poly c = crc8_shift poly c' -> c = c'.
Proof.
  intros Hc Hc'. unfold crc8_shift. cbv zeta.
  rewrite !shifted_mod, !top_bit by assumption.
  assert (Hpar : forall x, Z.odd (Z.lxor ((2 * x) mod 256) poly) = true).
  { intros x. rewrite <- Z.bit0_odd, Z.lxor_spec, !Z.bit0_odd, poly_odd.
    replace ((2 * x) mod 256) with (2 * (x mod 128)).
    - rewrite Z.odd_mul. reflexivity.
    - pose proof (Z.div_mod x 128 ltac:(lia)).
      pose proof (Z.mod_pos_bound x 128 ltac:(lia)).
      apply Z.mod_unique with (q := x / 128); lia. }
  assert (Heven : forall x, Z.odd ((2 * x) mod 256) = false).
  { intros x. replace ((2 * x) mod 256) with (2 * (x mod 128)).
    - rewrite Z.odd_mul. reflexivity.
    - pose proof (Z.div_mod x 128 ltac:(lia)).
      pose proof (Z.mod_pos_bound x 128 ltac:(lia)).
      apply Z.mod_unique with (q := x / 128); lia. }
  unfold u8 in Hc, Hc'.
  destruct (128 <=? c) eqn:E; destruct (128 <=? c') eqn:E'; intros H.
  - apply lxor_inj_r in H. apply Z.leb_le in E, E'.
    rewrite <- (Z.mod_unique (2 * c) 256 1 (2 * c - 256)) in H by lia.
    rewrite <- (Z.mod_unique (2 * c') 256 1 (2 * c' - 256)) in H by lia.
    lia.
  - apply (f_equal Z.odd) in H. rewrite Hpar, Heven in H. discriminate.
  - apply (f_equal Z.odd) in H. rewrite Hpar, Heven in H. discriminate.
  - apply Z.leb_gt in E, E'.
    rewrite !Z.mod_small in H by lia. lia.
Qed.

Lemma iter_shift_u8 (k : nat) (c : Z) :
  u8 c -> u8 (Nat.iter k (crc8_shift poly) c).
Proof.
  intros Hc. induction k as [|k IH]; cbn [Nat.iter]; [assumption|].
  apply crc8_shift_u8.
Qed.

Lemma iter_shift_inj (k : nat) (c c' : Z) :
  u8 c -> u8 c' ->
  Nat.iter k (crc8_shift poly) c = Nat.iter k (crc8_shift poly) c' -> c = c'.
Proof.
  intros Hc Hc'. induction k as [|k IH]; cbn [Nat.iter]; [trivial|].
  intros H. apply IH. apply crc8_shift_inj; auto using iter_shift_u8.
Qed.

Lemma crc8_byte_u8 (c b : Z) : u8 c -> u8 b -> u8 (crc8_byte poly c b).
Proof.
  intros Hc Hb. apply iter_shift_u8, lxor_u8; assumption.
Qed.

(** The register after a byte determines the register before it ... *)
Lemma crc8_byte_inj_reg (c c' b : Z) :
  u8 c -> u8 c' -> u8 b ->
  crc8_byte poly c b = crc8_byte poly c' b -> c = c'.
Proof.
  intros Hc Hc' Hb H. apply iter_shift_inj in H; auto using lxor_u8.
  apply (lxor_inj_r c c' b); assumption.
Qed.

(** ... and, the register before it known, the byte. *)
Lemma crc8_byte_inj_byte (c b b' : Z) :
  u8 c -> u8 b -> u8 b' ->
  crc8_byte poly c b = crc8_byte poly c b' -> b = b'.
Proof.
  intros Hc Hb Hb' H. apply iter_shift_inj in H; auto using lxor_u8.
  apply (lxor_inj_l c b b'); assumption.
Qed.

Lemma fold_crc8_u8 (data : list Z) :
  Forall u8 data ->
  forall c, u8 c -> u8 (fold_left (crc8_byte poly) data c).
Proof.
  induction 1 as [|b data Hb _ IH]; intros c Hc; cbn [fold_left];
    auto using crc8_byte_u8.
Qed.

Lemma fold_crc8_inj (data : list Z) :
  Forall u8 data ->
  forall c c', u8 c -> u8 c' ->
    fold_left (crc8_byte poly) data c = fold_left (crc8_byte poly) data c' ->
    c = c'.
Proof.
  induction 1 as [|b data Hb _ IH]; intros c c' Hc Hc' H; cbn [fold_left] in H;
    [assumption|].
  apply IH in H; auto using crc8_byte_u8.
  apply (crc8_byte_inj_reg c c' b); assumption.
Qed.

(** Two messages that differ in exactly one byte never share a checksum. *)
Lemma crc8_one_byte (init xorout : Z) (pre post : list Z) (b b' : Z) :
  u8 init -> Forall u8 pre -> Forall u8 post -> u8 b -> u8 b' -> b <> b' ->
  crc8 poly init xorout (pre ++ b :: post) <>
  crc8 poly init xorout (pre ++ b' :: post).
Proof.
  intros Hi Hpre Hpost Hb Hb' Hne H. unfold crc8 in H.
  apply lxor_inj_r in H.
  rewrite !fold_left_app in H. cbn [fold_left] in H.
  pose proof (fold_crc8_u8 pre Hpre init Hi) as Hs.
  apply fold_crc8_inj in H; auto using crc8_byte_u8.
  apply (crc8_byte_inj_byte _ b b') in H; auto.
Qed.

End Crc8Facts.

(** ** The receiver's claims *)

Section ReceiverClaims.

Import Receiver.

Variable calculate_crc8 : list Z -> Z.
Variable clock : nat -> Z.

Local Abbreviation parse := (parse_binary_sensor_data calculate_crc8).
Local Abbreviation step := (scan_step calculate_crc8 clock).
Local Abbreviation scan_all := (scan calculate_crc8 clock).
Local Abbreviation read := (read_binary_sensor_data calculate_crc8 clock).
Local Abbreviation feed := (feed_chunks calculate_crc8 clock).
Local Abbreviation stream := (frames_stream calculate_crc8).
Local Abbreviation samples := (frames_samples clock).

Lemma parse_valid_frame (payload : list Z) (k now : Z) :
  List.length payload = 32%nat ->
  calculate_crc8 payload = k ->
  parse (frame_bytes payload k) 0 now = Ok (decode_payload payload now, 35%nat).
Proof.
  intros Hlen Hk.
  pose proof (parse_frame_at calculate_crc8 [] payload [] k now Hlen) as H.
  cbn [app List.length Nat.add] in H. rewrite app_nil_r in H.
  rewrite H, Hk, Z.eqb_refl. reflexivity.
Qed.

Lemma read_one_frame (payload : list Z) (t : nat) :
  List.length payload = 32%nat ->
  read (ReadOk (valid_frame calculate_crc8 payload)) t =
  (Ok [decode_payload payload (clock t)], S t).
Proof.
  intros Hlen.
  pose proof (read_frames calculate_crc8 clock [payload] t) as H.
  unfold frames_stream in H. cbn [map List.concat] in H.
  rewrite app_nil_r in H. rewrite H.
  - cbn [frames_samples List.length]. f_equal. lia.
  - constructor; [assumption|constructor].
  - unfold BUFFER_LEN. cbn [List.length]. lia.
Qed.

(** C2: a 35-byte frame made of the marker AA 55, a little-endian
    timestamp, seven little-endian float patterns in the order temp, gx, gy,
    gz, ax, ay, az, and a checksum byte equal to the checksum of the 32
    payload bytes, parses to the sample with exactly these eight values, and
    a read that receives the frame returns that one sample.  The bytes AA 55,
    2C 01 00 00, seven times 00 00 80 3F and the matching checksum parse to
    timestamp 300 and seven floats of pattern 3F800000, which denotes 1.0. *)
Theorem binary_frame_decodes :
  (forall ts t x y z a b c k now : Z,
      u32 ts -> u32 t -> u32 x -> u32 y -> u32 z -> u32 a -> u32 b ->
      u32 c ->
      calculate_crc8 (payload_bytes ts t x y z a b c) = k ->
      parse (frame_bytes (payload_bytes ts t x y z a b c) k) 0 now =
      Ok (mkSensorData ts (f32_from_bits t) (f32_from_bits x)
            (f32_from_bits y) (f32_from_bits z) (f32_from_bits a)
            (f32_from_bits b) (f32_from_bits c) now, 35%nat))
  /\ (forall (ts t x y z a b c : Z) (t0 : nat),
      u32 ts -> u32 t -> u32 x -> u32 y -> u32 z -> u32 a -> u32 b ->
      u32 c ->
      read (ReadOk (valid_frame calculate_crc8
                      (payload_bytes ts t x y z a b c))) t0 =
      (Ok [mkSensorData ts (f32_from_bits t) (f32_from_bits x)
             (f32_from_bits y) (f32_from_bits z) (f32_from_bits a)
             (f32_from_bits b) (f32_from_bits c) (clock t0)], S t0))
  /\ (forall now : Z,
      parse ([170; 85; 44; 1; 0; 0;
              0; 0; 128; 63; 0; 0; 128; 63; 0; 0; 128; 63; 0; 0; 128; 63;
              0; 0; 128; 63; 0; 0; 128; 63; 0; 0; 128; 63]
             ++ [calculate_crc8 scenario_payload]) 0 now =
      Ok (mkSensorData 300 ONE ONE ONE ONE ONE ONE ONE now, 35%nat))
  /\ f32_value ONE = Some 1%Q.
Proof.
  split; [|split; [|split]].
  - intros. rewrite parse_valid_frame; auto using payload_bytes_length.
    rewrite decode_payload_bytes by assumption. reflexivity.
  - intros. rewrite read_one_frame by apply payload_bytes_length.
    rewrite decode_payload_bytes by assumption. reflexivity.
  - intros now.
    change (parse (frame_bytes scenario_payload
                     (calculate_crc8 scenario_payload)) 0 now = 
            Ok (mkSensorData 300 ONE ONE ONE ONE ONE ONE ONE now, 35%nat)).
    rewrite parse_valid_frame by reflexivity. reflexivity.
  - reflexivity.
Qed.

Lemma stream_cons (p : list Z) (ps : list (list Z)) :
  stream (p :: ps) = valid_frame calculate_crc8 p ++ stream ps.
Proof. reflexivity. Qed.

Ltac list_norm :=
  repeat first [rewrite stream_cons | rewrite <- app_assoc
               | progress cbn [app]].

Lemma scan_frames_in (buffer pre post : list Z) (ps : list (list Z))
    (n i : nat) r t :
  buffer = pre ++ stream ps ++ post ->
  i = List.length pre ->
  Forall (fun p => List.length p = 32%nat) ps ->
  (i + 35 * List.length ps <= n)%nat ->
  scan_all buffer n (mkScan i r t) =
  scan_all buffer n
    (mkScan (i + 35 * List.length ps) (r ++ samples ps t)
            (t + List.length ps)).
Proof.
  intros -> -> Hps Hn. apply scan_frames; assumption.
Qed.

Lemma scan_junk_in (buffer pre rest : list Z) (b : Z) (n i : nat) r t :
  buffer = pre ++ b :: 170 :: rest ->
  i = List.length pre ->
  (i < n)%nat ->
  scan_all buffer n (mkScan i r t) = scan_all buffer n (mkScan (i + 1) r t).
Proof.
  intros -> -> Hn. rewrite scan_lt by (cbn [index]; lia).
  rewrite step_junk. reflexivity.
Qed.

(** A stream of valid frames with one stray byte in front of one of them:
    every frame is still decoded. *)
Lemma read_frames_with_stray_byte (fs gs : list (list Z)) (p : list Z)
    (b : Z) (t : nat) :
  Forall (fun q => List.length q = 32%nat) (fs ++ p :: gs) ->
  (35 * List.length (fs ++ p :: gs) + 1 <= BUFFER_LEN)%nat ->
  read (ReadOk (stream fs ++ [b] ++ valid_frame calculate_crc8 p
                  ++ stream gs)) t =
  (Ok (samples (fs ++ p :: gs) t), (t + List.length (fs ++ p :: gs))%nat).
Proof.
  intros Hall Hn.
  assert (Hfs : Forall (fun q => List.length q = 32%nat) fs)
    by (apply Forall_app in Hall; tauto).
  assert (Hpgs : Forall (fun q => List.length q = 32%nat) (p :: gs))
    by (apply Forall_app in Hall; tauto).
  pose proof (frames_stream_length calculate_crc8 fs Hfs) as Lfs.
  pose proof (frames_stream_length calculate_crc8 (p :: gs) Hpgs) as Lpgs.
  rewrite length_app in Hn. cbn [List.length] in Hn, Lpgs.
  set (bytes := stream fs ++ [b] ++ valid_frame calculate_crc8 p
                 ++ stream gs).
  assert (LS : List.length bytes =
               (35 * List.length fs + 1 + 35 * S (List.length gs))%nat).
  { unfold bytes. rewrite !length_app, Lfs. cbn [List.length].
    rewrite <- length_app.
    change (valid_frame calculate_crc8 p ++ stream gs) with (stream (p :: gs)).
    rewrite Lpgs. lia. }
  rewrite read_scan by lia. cbv zeta.
  set (pad := repeat 0 (BUFFER_LEN - List.length bytes)).
  set (buffer := bytes ++ pad).
  rewrite (scan_frames_in buffer [] ([b] ++ stream (p :: gs) ++ pad) fs)
    by (try assumption; try reflexivity; try (cbn [List.length]; lia);
        unfold buffer, bytes; list_norm; reflexivity).
  cbn [Nat.add app].
  rewrite (scan_junk_in buffer (stream fs)
             (85 :: p ++ [calculate_crc8 p] ++ stream gs ++ pad) b)
    by (try lia;
        unfold buffer, bytes, valid_frame, frame_bytes; list_norm;
        reflexivity).
  rewrite (scan_frames_in buffer (stream fs ++ [b]) pad (p :: gs))
    by (try assumption; try (rewrite length_app; cbn [List.length]; lia);
        try (cbn [List.length]; lia);
        unfold buffer, bytes; list_norm; reflexivity).
  rewrite scan_ge by (cbn [index List.length]; lia).
  cbn [result ticks]. rewrite frames_samples_app, length_app.
  cbn [List.length app]. f_equal. lia.
Qed.

(** C3: a turn of the loop that finds no marker under the scan position
    moves one byte on and changes nothing else; so does a turn that finds
    the marker and whose candidate frame the parser rejects, on a failed
    checksum in particular: one byte on, not the 35 of a frame, and as the
    byte there is the marker's second one the scan goes on from right after
    the marker.  Hence a buffer of valid frames with one stray byte inserted immediately before
    a frame F decodes to the samples of all its frames, F among them, no
    frame lost. *)
Theorem resynchronization :
  (forall (buffer : list Z) (n : nat) (st : scan_state),
      marker_at buffer n (index st) = false ->
      step buffer n st = mkScan (index st + 1) (result st) (ticks st))
  /\ (forall (buffer : list Z) (n : nat) (st : scan_state),
      marker_at buffer n (index st) = true ->
      parse buffer (index st) (clock (ticks st)) =
        Err (FromReceiver (ParseError "CRC check failed")) ->
      step buffer n st = mkScan (index st + 1) (result st) (ticks st)
      /\ scan_all buffer n st =
         scan_all buffer n (mkScan (index st + 2) (result st) (ticks st)))
  /\ (forall (fs gs : list (list Z)) (F : list Z) (b : Z) (t : nat),
      Forall (fun q => List.length q = 32%nat) (fs ++ F :: gs) ->
      (35 * List.length (fs ++ F :: gs) + 1 <= BUFFER_LEN)%nat ->
      read (ReadOk (stream fs ++ [b] ++ valid_frame calculate_crc8 F
                      ++ stream gs)) t =
      (Ok (samples fs t ++ decode_payload F (clock (t + List.length fs))
             :: samples gs (S (t + List.length fs))),
       (t + List.length (fs ++ F :: gs))%nat)).
Proof.
  split; [|split].
  - intros buffer n st H. apply step_no_marker. exact H.
  - intros buffer n st Hm H.
    pose proof (step_parse_err calculate_crc8 clock buffer n st _ H) as Hs.
    split; [exact Hs|].
    unfold marker_at in Hm. apply andb_true_iff in Hm as [Hm H85].
    apply andb_true_iff in Hm as [Hn _].
    apply Nat.ltb_lt in Hn. apply Z.eqb_eq in H85.
    rewrite scan_lt, Hs by lia.
    rewrite scan_lt by (cbn [index]; lia).
    rewrite step_no_marker; cbn [index result ticks].
    + do 2 f_equal. lia.
    + rewrite H85. cbn [Z.eqb]. rewrite andb_false_r. reflexivity.
  - intros fs gs F b t Hall Hn.
    rewrite read_frames_with_stray_byte by assumption.
    rewrite frames_samples_app. reflexivity.
Qed.

(** C4, as the code has it: whatever bytes a read delivers, the call
    returns [Ok]; a turn of the loop that meets a bad marker or a frame the
    parser rejects changes nothing but the scan position, which moves one
    byte on (the loop keeps no count of bytes or of failed checksums); and
    an error comes back only when the port itself reports one that is not a
    timeout. *)
Theorem framing_errors_absorbed :
  (forall (bytes : list Z) (t : nat),
      exists decoded t', read (ReadOk bytes) t = (Ok decoded, t'))
  /\ (forall (buffer : list Z) (n : nat) (st : scan_state) e,
      parse buffer (index st) (clock (ticks st)) = Err e ->
      step buffer n st = mkScan (index st + 1) (result st) (ticks st))
  /\ (forall (buffer : list Z) (n : nat) (st : scan_state),
      marker_at buffer n (index st) = false ->
      step buffer n st = mkScan (index st + 1) (result st) (ticks st))
  /\ (forall (port_read : PortRead) (t t' : nat) e,
      read port_read t = (Err e, t') ->
      exists kind,
        port_read = ReadErr kind /\ kind <> TimedOut /\ e = FromIo kind).
Proof.
  split; [|split; [|split]].
  - intros bytes t. unfold read_binary_sensor_data.
    destruct (_ =? 0)%nat; eauto.
  - intros buffer n st e H. eapply step_parse_err. exact H.
  - intros buffer n st H. apply step_no_marker. exact H.
  - intros [bytes|kind] t t' e H.
    + unfold read_binary_sensor_data in H.
      destruct (_ =? 0)%nat; discriminate H.
    + exists kind. destruct kind; cbn in H; inversion H; subst;
        repeat split; discriminate.
Qed.

Lemma feed_frames (chunks : list (list (list Z))) :
  Forall (Forall (fun p => List.length p = 32%nat)) chunks ->
  (35 * List.length (List.concat chunks) <= BUFFER_LEN)%nat ->
  forall t,
    feed (map stream chunks) t =
    (Ok (samples (List.concat chunks) t),
     (t + List.length (List.concat chunks))%nat).
Proof.
  induction 1 as [|c cs Hc Hcs IH]; intros Hn t.
  - cbn. rewrite Nat.add_0_r. reflexivity.
  - cbn [List.concat] in Hn. rewrite length_app in Hn.
    cbn [map feed_chunks List.concat].
    rewrite read_frames by (assumption || lia).
    rewrite IH by lia.
    rewrite frames_samples_app, length_app. f_equal. lia.
Qed.

Lemma stream_concat (chunks : list (list (list Z))) :
  List.concat (map stream chunks) = stream (List.concat chunks).
Proof.
  unfold frames_stream.
  induction chunks as [|c cs IH]; [reflexivity|].
  cbn [map List.concat]. rewrite map_app, concat_app, IH. reflexivity.
Qed.

(** C1, as the code has it: when a byte stream made of valid frames fits
    one read buffer and is cut into chunks on frame boundaries only, the
    reads of the chunks one after the other return, in order, the same
    samples as one read of the whole stream, namely the samples of all its
    frames.  (Nothing is kept from one call to the next; what happens to a
    frame that a chunk boundary cuts is not part of this statement.) *)
Theorem chunking_on_frame_boundaries :
  forall (chunks : list (list (list Z))) (t : nat),
    Forall (Forall (fun p => List.length p = 32%nat)) chunks ->
    (35 * List.length (List.concat chunks) <= BUFFER_LEN)%nat ->
    feed (map stream chunks) t =
      read (ReadOk (List.concat (map stream chunks))) t
    /\ feed (map stream chunks) t =
       (Ok (samples (List.concat chunks) t),
        (t + List.length (List.concat chunks))%nat).
Proof.
  intros chunks t Hall Hn.
  rewrite feed_frames, stream_concat by assumption.
  rewrite read_frames; [split; reflexivity| |assumption].
  apply Forall_concat. exact Hall.
Qed.

End ReceiverClaims.

(** ** One flipped payload bit *)

Section BitFlip.

Import Receiver.

Lemma split_at_nth (l : list Z) :
  forall j, (j < List.length l)%nat ->
            l = firstn j l ++ nth j l 0 :: skipn (S j) l.
Proof.
  induction l as [|x l IH]; intros [|j] H; cbn [List.length] in H;
    try lia; cbn [firstn nth skipn app]; [reflexivity|].
  f_equal. apply IH. lia.
Qed.

Lemma flip_bit_at_length (l : list Z) (j : nat) (k : Z) :
  (j < List.length l)%nat ->
  List.length (flip_bit_at l j k) = List.length l.
Proof.
  intros H. rewrite (split_at_nth l j H) at 2. unfold flip_bit_at.
  rewrite !length_app. reflexivity.
Qed.

Lemma flip_payload_bit_frame (payload : list Z) (c : Z) (bit : nat) :
  (bit / 8 < List.length payload)%nat ->
  flip_payload_bit (frame_bytes payload c) bit =
  frame_bytes (flip_bit_at payload (bit / 8) (Z.of_nat (bit mod 8))) c.
Proof.
  intros H. unfold flip_payload_bit, flip_bit_at, frame_bytes.
  cbn [Nat.add app firstn nth]. rewrite !skipn_cons.
  rewrite firstn_app, app_nth1, skipn_app by lia.
  replace (bit / 8 - List.length payload)%nat with 0%nat by lia.
  replace (S (bit / 8) - List.length payload)%nat with 0%nat by lia.
  cbn [firstn skipn]. rewrite app_nil_r, <- app_assoc. reflexivity.
Qed.

Lemma flipped_byte (b k : Z) :
  u8 b -> 0 <= k < 8 -> u8 (Z.lxor b (2 ^ k)) /\ b <> Z.lxor b (2 ^ k).
Proof.
  intros Hb Hk.
  assert (H2 : u8 (2 ^ k)).
  { unfold u8. split; [apply Z.pow_nonneg; lia|].
    change 256 with (2 ^ 8). apply Z.pow_lt_mono_r; lia. }
  split; [apply lxor_u8; assumption|].
  intros H. rewrite <- (Z.lxor_0_r b) in H at 1.
  apply lxor_inj_l in H.
  pose proof (Z.pow_pos_nonneg 2 k ltac:(lia) ltac:(lia)). lia.
Qed.

(** C7: take a valid 35-byte frame, its checksum a CRC-8 whose generator
    polynomial has the constant term one, and flip any one of the 256 bits
    of its payload.  The parser, which accepted the frame, now fails with
    "CRC check failed", and the scan loop turns the candidate down: it moves
    one byte on and adds no sample. *)
Theorem single_bit_flip_rejected :
  forall (poly init xorout : Z) (payload : list Z) (bit : nat) (now : Z),
    u8 poly -> Z.odd poly = true -> u8 init ->
    List.length payload = 32%nat -> Forall u8 payload ->
    (bit < 256)%nat ->
    let crc := Crc8.crc8 poly init xorout in
    let frame := valid_frame crc payload in
    parse_binary_sensor_data crc frame 0 now =
      Ok (decode_payload payload now, 35%nat)
    /\ parse_binary_sensor_data crc (flip_payload_bit frame bit) 0 now =
       Err (FromReceiver (ParseError "CRC check failed"))
    /\ forall (clock : nat -> Z) (n : nat) r t,
        scan_step crc clock (flip_payload_bit frame bit) n (mkScan 0 r t) =
        mkScan 1 r t.
Proof.
  intros poly init xorout payload bit now Hp Hodd Hi Hlen Hu8 Hbit crc frame.
  assert (Hj : (bit / 8 < List.length payload)%nat).
  { rewrite Hlen. apply Nat.Div0.div_lt_upper_bound. lia. }
  assert (Hk : 0 <= Z.of_nat (bit mod 8) < 8).
  { pose proof (Nat.mod_upper_bound bit 8 ltac:(lia)). lia. }
  set (j := (bit / 8)%nat) in *. set (k := Z.of_nat (bit mod 8)) in *.
  assert (Hrej : forall now',
             parse_binary_sensor_data crc (flip_payload_bit frame bit) 0 now' =
             Err (FromReceiver (ParseError "CRC check failed"))).
  { intros now'. unfold frame, valid_frame.
    rewrite flip_payload_bit_frame by assumption. fold j k.
    pose proof (parse_frame_at crc [] (flip_bit_at payload j k) []
                  (crc payload) now') as H.
    cbn [app List.length Nat.add] in H. rewrite app_nil_r in H.
    rewrite H by (rewrite flip_bit_at_length; assumption).
    replace (crc (flip_bit_at payload j k) =? crc payload) with false;
      [reflexivity|].
    symmetry. apply Z.eqb_neq. intros Heq.
    rewrite (split_at_nth payload j Hj) in Heq at 2.
    rewrite (split_at_nth payload j Hj) in Hu8.
    apply Forall_app in Hu8 as [Hpre Hrest].
    apply Forall_cons_iff in Hrest as [Hb Hpost].
    destruct (flipped_byte (nth j payload 0) k Hb Hk) as [Hb' Hne].
    unfold flip_bit_at, crc in Heq.
    apply (crc8_one_byte poly Hp Hodd init xorout _ _ _ _ Hi Hpre Hpost
             Hb Hb' Hne).
    symmetry. exact Heq. }
  split; [|split].
  - apply parse_valid_frame; [assumption|reflexivity].
  - apply Hrej.
  - intros clock n r t.
    apply (step_parse_err crc clock _ n (mkScan 0 r t)
             (FromReceiver (ParseError "CRC check failed"))).
    apply Hrej.
Qed.

End BitFlip.

(** ** The receiver on concrete streams *)

Module ReceiverExamples.

Import Receiver.
Import Scenario.


Lemma scenario_payload_u8 : Forall u8 scenario_payload.
Proof.
  unfold scenario_payload. cbn [app].
  repeat constructor; unfold u8; lia.
Defined.

(** C1 refuted: the scenario frame, cut after its first byte.  One read of
    the whole frame returns its sample; the reads of the two pieces return
    nothing, the byte AA that ended the first piece having been dropped
    when that call returned. *)
Lemma split_frame_is_lost :
  let chunks := [[170]; tl scenario_frame] in
  List.concat chunks = scenario_frame
  /\ read_binary_sensor_data crc clock (ReadOk (List.concat chunks)) 0 =
     (Ok [scenario_sample 1000], 1%nat)
  /\ feed_chunks crc clock chunks 0 = (Ok [], 0%nat).
Proof.
  vm_compute. repeat split.
Qed.

Lemma chunking_on_frame_boundaries_witness :
  let chunks := [[scenario_payload]; [scenario_payload; scenario_payload]] in
  Forall (Forall (fun p => List.length p = 32%nat)) chunks
  /\ (35 * List.length (List.concat chunks) <= BUFFER_LEN)%nat
  /\ feed_chunks crc clock (map (frames_stream crc) chunks) 0 =
     read_binary_sensor_data crc clock
       (ReadOk (List.concat (map (frames_stream crc) chunks))) 0
  /\ feed_chunks crc clock (map (frames_stream crc) chunks) 0 =
     (Ok (frames_samples clock (List.concat chunks) 0),
      (0 + List.length (List.concat chunks))%nat).
Proof.
  cbv zeta.
  assert (H1 : Forall (Forall (fun p => List.length p = 32%nat))
                 [[scenario_payload]; [scenario_payload; scenario_payload]])
    by (repeat constructor).
  assert (H2 : (35 * List.length
                  (List.concat [[scenario_payload];
                                [scenario_payload; scenario_payload]])
                <= BUFFER_LEN)%nat)
    by (apply Nat.leb_le; vm_compute; reflexivity).
  split; [exact H1|]. split; [exact H2|].
  exact (chunking_on_frame_boundaries crc clock _ 0%nat H1 H2).
Defined.

Lemma binary_frame_decodes_witness :
  u32 300 /\ u32 1065353216
  /\ crc (payload_bytes 300 1065353216 1065353216 1065353216 1065353216
            1065353216 1065353216 1065353216) = 168
  /\ parse_binary_sensor_data crc
       (frame_bytes
          (payload_bytes 300 1065353216 1065353216 1065353216 1065353216
             1065353216 1065353216 1065353216) 168) 0 1000 =
     Ok (scenario_sample 1000, 35%nat).
Proof.
  assert (H300 : u32 300) by (unfold u32; lia).
  assert (H1 : u32 1065353216) by (unfold u32; lia).
  assert (Hc : crc (payload_bytes 300 1065353216 1065353216 1065353216
                      1065353216 1065353216 1065353216 1065353216) = 168)
    by (vm_compute; reflexivity).
  split; [exact H300|]. split; [exact H1|]. split; [exact Hc|].
  exact (proj1 (binary_frame_decodes crc clock) 300 1065353216 1065353216
           1065353216 1065353216 1065353216 1065353216 1065353216 168 1000
           H300 H1 H1 H1 H1 H1 H1 H1 Hc).
Defined.

Lemma flipped_crc_then_valid_frame :
  Z.lxor 168 255 = 87
  /\ read_binary_sensor_data crc clock
       (ReadOk (bad_crc_frame ++ scenario_frame)) 0 =
     (Ok [scenario_sample 1000], 1%nat).
Proof.
  vm_compute. repeat split.
Qed.

Lemma resynchronization_witness :
  (marker_at [0; 170; 85] 3 0 = false
   /\ scan_step crc clock [0; 170; 85] 3 (mkScan 0 [] 0) = mkScan 1 [] 0)
  /\ (marker_at bad_crc_frame 35 0 = true
      /\ parse_binary_sensor_data crc bad_crc_frame 0 (clock 0) =
         Err (FromReceiver (ParseError "CRC check failed"))
      /\ scan_step crc clock bad_crc_frame 35 (mkScan 0 [] 0) =
         mkScan 1 [] 0)
  /\ (Forall (fun q => List.length q = 32%nat)
        ([scenario_payload] ++ scenario_payload :: [])
      /\ (35 * List.length ([scenario_payload] ++ scenario_payload :: []) + 1
          <= BUFFER_LEN)%nat
      /\ read_binary_sensor_data crc clock
           (ReadOk (frames_stream crc [scenario_payload] ++ [255]
                      ++ valid_frame crc scenario_payload
                      ++ frames_stream crc [])) 0 =
         (Ok [scenario_sample 1000; scenario_sample 1001], 2%nat)).
Proof.
  destruct (resynchronization crc clock) as [Ha [Hb Hc]].
  assert (M1 : marker_at [0; 170; 85] 3 0 = false) by reflexivity.
  assert (M2 : marker_at bad_crc_frame 35 0 = true) by reflexivity.
  assert (P2 : parse_binary_sensor_data crc bad_crc_frame 0 (clock 0) =
               Err (FromReceiver (ParseError "CRC check failed")))
    by (vm_compute; reflexivity).
  assert (F3 : Forall (fun q => List.length q = 32%nat)
                 ([scenario_payload] ++ scenario_payload :: []))
    by (repeat constructor).
  assert (L3 : (35 * List.length ([scenario_payload] ++ scenario_payload :: [])
                + 1 <= BUFFER_LEN)%nat)
    by (apply Nat.leb_le; vm_compute; reflexivity).
  split; [|split].
  - split; [exact M1|]. exact (Ha [0; 170; 85] 3%nat (mkScan 0 [] 0) M1).
  - split; [exact M2|]. split; [exact P2|].
    exact (proj1 (Hb bad_crc_frame 35%nat (mkScan 0 [] 0) M2 P2)).
  - split; [exact F3|]. split; [exact L3|].
    exact (Hc [scenario_payload] [] scenario_payload 255 0%nat F3 L3).
Defined.

(** C4 refuted in its second half: nothing a call returns depends on how
    many bytes it threw away; one stray byte and two give the same answer,
    so no count of discarded bytes can be read off it. *)
Lemma no_discard_counter :
  ~ exists bytes_discarded : Result (list SensorData) * nat -> nat,
      forall bytes : list Z,
        Forall (fun b => b = 0) bytes ->
        bytes_discarded
          (read_binary_sensor_data crc clock (ReadOk bytes) 0) =
        List.length bytes.
Proof.
  intros [count H].
  pose proof (H [0] ltac:(repeat constructor)) as H1.
  pose proof (H [0; 0] ltac:(repeat constructor)) as H2.
  assert (E : read_binary_sensor_data crc clock (ReadOk [0]) 0 =
              read_binary_sensor_data crc clock (ReadOk [0; 0]) 0)
    by (vm_compute; reflexivity).
  rewrite E in H1. rewrite H1 in H2. discriminate H2.
Qed.

Lemma framing_errors_absorbed_witness :
  parse_binary_sensor_data crc bad_crc_frame 0 (clock 0) =
    Err (FromReceiver (ParseError "CRC check failed"))
  /\ scan_step crc clock bad_crc_frame 35 (mkScan 0 [] 0) = mkScan 1 [] 0
  /\ marker_at [0; 170; 85] 3 0 = false
  /\ scan_step crc clock [0; 170; 85] 3 (mkScan 0 [] 0) = mkScan 1 [] 0
  /\ read_binary_sensor_data crc clock (ReadErr BrokenPipe) 0 =
     (Err (FromIo BrokenPipe), 0%nat)
  /\ exists kind,
      ReadErr BrokenPipe = ReadErr kind /\ kind <> TimedOut
      /\ FromIo BrokenPipe = FromIo kind.
Proof.
  destruct (framing_errors_absorbed crc clock) as [_ [Hb [Hc Hd]]].
  assert (P : parse_binary_sensor_data crc bad_crc_frame 0 (clock 0) =
              Err (FromReceiver (ParseError "CRC check failed")))
    by (vm_compute; reflexivity).
  assert (M : marker_at [0; 170; 85] 3 0 = false) by reflexivity.
  assert (R : read_binary_sensor_data crc clock (ReadErr BrokenPipe) 0 =
              (Err (FromIo BrokenPipe), 0%nat)) by reflexivity.
  split; [exact P|].
  split; [exact (Hb bad_crc_frame 35%nat (mkScan 0 [] 0) _ P)|].
  split; [exact M|].
  split; [exact (Hc [0; 170; 85] 3%nat (mkScan 0 [] 0) M)|].
  split; [exact R|].
  exact (Hd (ReadErr BrokenPipe) 0%nat 0%nat _ R).
Defined.

Lemma single_bit_flip_rejected_witness :
  u8 7 /\ Z.odd 7 = true /\ u8 0
  /\ List.length scenario_payload = 32%nat /\ Forall u8 scenario_payload
  /\ (0 < 256)%nat
  /\ parse_binary_sensor_data crc scenario_frame 0 1000 =
     Ok (decode_payload scenario_payload 1000, 35%nat)
  /\ parse_binary_sensor_data crc (flip_payload_bit scenario_frame 0) 0 1000 =
     Err (FromReceiver (ParseError "CRC check failed")).
Proof.
  assert (H7 : u8 7) by (unfold u8; lia).
  assert (H0 : u8 0) by (unfold u8; lia).
  assert (Hlt : (0 < 256)%nat) by lia.
  pose proof (single_bit_flip_rejected 7 0 0 scenario_payload 0%nat 1000
                H7 eq_refl H0 eq_refl scenario_payload_u8 Hlt) as H.
  cbv zeta in H. destruct H as [Hok [Hrej _]].
  split; [exact H7|]. split; [reflexivity|]. split; [exact H0|].
  split; [reflexivity|]. split; [exact scenario_payload_u8|].
  split; [exact Hlt|]. split; [exact Hok|exact Hrej].
Defined.

End ReceiverExamples.

(* ------------------------------------------------------------------------- *)
(** ** The transmitter *)

Section LoggerFacts.

Import Logger.

Lemma to_int_small (z : Z) : - 2 ^ 31 <= z < 2 ^ 31 -> to_int z = z.
Proof.
  intros H. unfold to_int. rewrite Z.mod_small; lia.
Qed.

Lemma to_size_t_small (z : Z) : 0 <= z < 2 ^ 32 -> to_size_t z = z.
Proof.
  intros H. unfold to_size_t. apply Z.mod_small. lia.
Qed.

(** The count the loop of [drop_50msdata] starts from: a twentieth of the
    rate, rounded up to a multiple of the FIFO depth, and the depth itself
    when that is zero. *)
Lemma drop_count_spec (samprate nfifo : Z) :
  0 <= samprate < 2 ^ 31 -> 1 <= nfifo <= MAX_NFIFO ->
  drop_count samprate nfifo =
  if samprate / 20 =? 0 then nfifo
  else (samprate / 20 + nfifo - 1) / nfifo * nfifo.
Proof.
  unfold MAX_NFIFO. intros Hr Hf. unfold drop_count. cbv zeta.
  rewrite (Z.quot_div_nonneg samprate 20) by lia.
  assert (Hq : 0 <= samprate / 20 < 2 ^ 27).
  { split; [apply Z.div_pos; lia|].
    apply Z.div_lt_upper_bound; lia. }
  rewrite (to_int_small (samprate / 20 + nfifo)) by lia.
  rewrite (to_int_small (samprate / 20 + nfifo - 1)) by lia.
  rewrite Z.quot_div_nonneg by lia.
  set (q := samprate / 20) in *.
  pose proof (Z.div_mod (q + nfifo - 1) nfifo ltac:(lia)) as Hdm.
  pose proof (Z.mod_pos_bound (q + nfifo - 1) nfifo ltac:(lia)) as Hm.
  assert (Hk : 0 <= (q + nfifo - 1) / nfifo * nfifo <= q + nfifo - 1) by lia.
  rewrite to_int_small by lia.
  destruct (q =? 0) eqn:E.
  - apply Z.eqb_eq in E. rewrite E in *.
    replace ((0 + nfifo - 1) / nfifo) with 0; [reflexivity|].
    symmetry. apply Z.div_small. lia.
  - apply Z.eqb_neq in E.
    destruct ((q + nfifo - 1) / nfifo * nfifo =? 0) eqn:E0; [|reflexivity].
    apply Z.eqb_eq in E0. exfalso.
    assert (0 <= (q + nfifo - 1) / nfifo) by (apply Z.div_pos; lia).
    nia.
Qed.

Lemma drop_count_round_up (samprate nfifo : Z) :
  0 <= samprate < 2 ^ 31 -> 1 <= nfifo <= MAX_NFIFO ->
  let k := drop_count samprate nfifo in
  k mod nfifo = 0
  /\ nfifo <= k
  /\ samprate / 20 <= k < Z.max (samprate / 20) 1 + nfifo.
Proof.
  intros Hr Hf. cbv zeta. rewrite drop_count_spec by assumption.
  unfold MAX_NFIFO in Hf.
  assert (Hq : 0 <= samprate / 20) by (apply Z.div_pos; lia).
  destruct (samprate / 20 =? 0) eqn:E.
  - apply Z.eqb_eq in E. rewrite E, Z_mod_same_full. lia.
  - apply Z.eqb_neq in E. set (q := samprate / 20) in *.
    pose proof (Z.div_mod (q + nfifo - 1) nfifo ltac:(lia)) as Hdm.
    pose proof (Z.mod_pos_bound (q + nfifo - 1) nfifo ltac:(lia)) as Hm.
    rewrite Z.mod_mul by lia.
    assert (1 <= (q + nfifo - 1) / nfifo).
    { apply Z.div_le_lower_bound; lia. }
    nia.
Qed.

Lemma after_read_fields (fd nbytes : Z) (w : world) :
  imu_reads (after_read fd nbytes w) = tl (imu_reads w)
  /\ stdout (after_read fd nbytes w) = stdout w
  /\ calls (after_read fd nbytes w) = calls w ++ [ReadImu fd nbytes]
  /\ polls (after_read fd nbytes w) = polls w
  /\ stdin_reads (after_read fd nbytes w) = stdin_reads w.
Proof.
  destruct w as [bi op io rd pl sr sg en gd so cl].
  unfold after_read, read_imu. cbv zeta. cbn [log_call imu_reads].
  destruct rd as [|[r stored] rest]; cbn; repeat split.
Qed.

Lemma read_imu_done (fd nbytes : Z) (w : world) r stored rest :
  imu_reads w = (r, stored) :: rest ->
  read_imu fd nbytes w = Done r (after_read fd nbytes w).
Proof.
  intros H. unfold after_read, read_imu. cbv zeta. cbn [log_call imu_reads].
  rewrite H. reflexivity.
Qed.

Lemma skipn_S_tl {A} (l : list A) (m : nat) : skipn (S m) l = skipn m (tl l).
Proof.
  destruct l; cbn [skipn tl]; [|reflexivity]. destruct m; reflexivity.
Qed.

Lemma after_reads_fields (fd nbytes : Z) (m : nat) :
  forall w,
    imu_reads (after_reads fd nbytes m w) = skipn m (imu_reads w)
    /\ stdout (after_reads fd nbytes m w) = stdout w
    /\ calls (after_reads fd nbytes m w) =
       calls w ++ repeat (ReadImu fd nbytes) m
    /\ polls (after_reads fd nbytes m w) = polls w
    /\ stdin_reads (after_reads fd nbytes m w) = stdin_reads w.
Proof.
  induction m as [|m IH]; intros w; cbn [after_reads].
  - cbn [skipn repeat]. rewrite app_nil_r. repeat split.
  - destruct (IH (after_read fd nbytes w)) as (H1 & H2 & H3 & H4 & H5).
    destruct (after_read_fields fd nbytes w) as (A1 & A2 & A3 & A4 & A5).
    rewrite H1, H2, H3, H4, H5, A1, A2, A3, A4, A5, skipn_S_tl.
    cbn [repeat]. rewrite <- app_assoc. repeat split.
Qed.

(** The loop of [drop_50msdata], started on a multiple of the FIFO depth
    with answers enough in the queue, makes that many reads and ends. *)
Lemma drop_loop_run (fd nfifo : Z) :
  1 <= nfifo <= MAX_NFIFO ->
  forall (m fuel : nat) (w : world),
    (m < fuel)%nat -> (m <= List.length (imu_reads w))%nat ->
    Z.of_nat m * nfifo < 2 ^ 31 ->
    drop_loop fuel fd (Z.of_nat m * nfifo) nfifo w =
    Done tt (after_reads fd (to_size_t (sizeof_data * nfifo)) m w).
Proof.
  unfold MAX_NFIFO. intros Hf.
  induction m as [|m IH]; intros [|fuel] w Hfuel Hlen Hsmall; try lia.
  - reflexivity.
  - cbn [drop_loop after_reads].
    destruct (Z.of_nat (S m) * nfifo =? 0) eqn:E;
      [apply Z.eqb_eq in E; nia|].
    destruct (imu_reads w) as [|[r stored] rest] eqn:Er;
      [cbn [List.length] in Hlen; lia|].
    unfold bind at 1. rewrite (read_imu_done _ _ _ _ _ _ Er).
    replace (to_int (Z.of_nat (S m) * nfifo - nfifo))
      with (Z.of_nat m * nfifo) by (rewrite to_int_small; nia).
    apply IH; try lia; try nia.
    destruct (after_read_fields fd (to_size_t (sizeof_data * nfifo)) w)
      as (A1 & _).
    rewrite A1, Er. cbn [tl List.length] in *. lia.
Qed.

(** C9: [drop_50msdata] called with rate [r] and FIFO depth [f] starts
    its loop from [k], which is [r / 20] rounded up to the next multiple of
    [f], and [f] itself when [r / 20] is zero; it then makes [k / f] reads of
    [f] samples each, [k] samples in all, prints nothing, and returns 0.
    With rate 960 and depth 4 that is 48 samples in 12 reads, and in a run of
    [setup] the first line of data printed is that of sample 48. *)
Theorem drop_50msdata_discards :
  (forall (fd samprate nfifo : Z) (w : world),
      0 <= samprate < 2 ^ 31 -> 1 <= nfifo <= MAX_NFIFO ->
      let k := drop_count samprate nfifo in
      (Z.to_nat (k / nfifo) <= List.length (imu_reads w))%nat ->
      k = (if samprate / 20 =? 0 then nfifo
           else (samprate / 20 + nfifo - 1) / nfifo * nfifo)
      /\ k mod nfifo = 0
      /\ samprate / 20 <= k < Z.max (samprate / 20) 1 + nfifo
      /\ exists w',
          drop_50msdata fd samprate nfifo w = Done 0 w'
          /\ imu_reads w' = skipn (Z.to_nat (k / nfifo)) (imu_reads w)
          /\ calls w' =
             calls w ++ repeat (ReadImu fd (sizeof_data * nfifo))
                               (Z.to_nat (k / nfifo))
          /\ Z.of_nat (Z.to_nat (k / nfifo)) * nfifo = k
          /\ stdout w' = stdout w)
  /\ drop_count 960 4 = 48
  /\ exists w',
      setup example_world = Done tt w'
      /\ stdout w' =
         (start_line ++ uart_line (numbered 48) ++ uart_line (numbered 49)
          ++ uart_line (numbered 50) ++ uart_line (numbered 51)
          ++ "Poll error" ++ nl)%string.
Proof.
  split; [|split].
  - intros fd samprate nfifo w Hr Hf k Hlen.
    pose proof (drop_count_spec samprate nfifo Hr Hf) as Hk.
    pose proof (drop_count_round_up samprate nfifo Hr Hf) as Hround.
    cbv zeta in Hround. fold k in Hk, Hround.
    destruct Hround as (Hmod & Hge & Hrange).
    unfold MAX_NFIFO in Hf.
    assert (Hq : 0 <= samprate / 20 < 2 ^ 27).
    { split; [apply Z.div_pos; lia|]. apply Z.div_lt_upper_bound; lia. }
    assert (Hdiv : k / nfifo * nfifo = k).
    { pose proof (Z.div_mod k nfifo ltac:(lia)). lia. }
    assert (Hpos : 0 <= k / nfifo) by (apply Z.div_pos; lia).
    assert (Hm : Z.of_nat (Z.to_nat (k / nfifo)) * nfifo = k)
      by (rewrite Z2Nat.id; assumption).
    split; [exact Hk|]. split; [exact Hmod|]. split; [exact Hrange|].
    exists (after_reads fd (to_size_t (sizeof_data * nfifo))
              (Z.to_nat (k / nfifo)) w).
    destruct (after_reads_fields fd (to_size_t (sizeof_data * nfifo))
                (Z.to_nat (k / nfifo)) w) as (A1 & A2 & A3 & _).
    rewrite (to_size_t_small (sizeof_data * nfifo)) in A3 at 2
      by (unfold sizeof_data; lia).
    split; [|split; [exact A1|split; [exact A3|split; [exact Hm|exact A2]]]].
    unfold drop_50msdata, bind. fold k. rewrite <- Hm at 1.
    rewrite drop_loop_run; try reflexivity; unfold MAX_NFIFO; lia.
  - reflexivity.
  - eexists. split; vm_compute; reflexivity.
Qed.

(** *** The capture loop *)

(** A turn of the loop whose [poll] answers zero (the timeout) or less. *)
Lemma dump_loop_poll_le_0 (fuel : nat) (fd nfifo disp : Z)
    (func : logfunc_t) (arg c : Z) (w : world) p rest :
  polls w = p :: rest ->
  poll_ret p <= 0 ->
  exists w',
    dump_loop (S fuel) fd nfifo disp func arg c w = Done (-1) w'
    /\ stdout w' = (stdout w ++ "Poll error" ++ nl)%string
    /\ calls w' = calls w ++ [Poll 1000]
    /\ polls w' = rest
    /\ imu_reads w' = imu_reads w
    /\ stdin_reads w' = stdin_reads w.
Proof.
  intros Hp Hle.
  destruct w as [bi op io rd pl sr sg en gd so cl]. cbn in Hp. subst pl.
  cbn [dump_loop]. unfold bind at 1. unfold poll. cbv zeta.
  cbn [log_call polls board_init_answers open_answers ioctl_answers imu_reads
       stdin_reads stack_garbage errno g_data stdout calls].
  apply Z.leb_le in Hle. rewrite Hle.
  eexists. split; [reflexivity|]. cbn. repeat split.
Qed.

(** A turn of the loop whose [read] of the IMU answers anything but the
    size asked for. *)
Lemma dump_loop_read_error (fuel : nat) (fd nfifo disp : Z)
    (func : logfunc_t) (arg c : Z) (w : world) p prest r stored rrest :
  polls w = p :: prest ->
  0 < poll_ret p ->
  Z.land (revents1 p) POLLIN <> 0 ->
  imu_reads w = (r, stored) :: rrest ->
  to_size_t r <> to_size_t (sizeof_data * nfifo) ->
  exists w',
    dump_loop (S fuel) fd nfifo disp func arg c w = Done (-1) w'
    /\ stdout w' = (stdout w ++ "Read error : " ++ fmt_d r ++ nl)%string
    /\ calls w' =
       calls w ++ [Poll 1000; ReadImu fd (to_size_t (sizeof_data * nfifo))]
    /\ polls w' = prest
    /\ imu_reads w' = rrest
    /\ stdin_reads w' = stdin_reads w.
Proof.
  intros Hp Hpos Hin Hr Hne.
  destruct w as [bi op io rd pl sr sg en gd so cl]. cbn in Hp, Hr.
  subst pl rd.
  cbn [dump_loop]. unfold bind at 1. unfold poll. cbv zeta.
  cbn [log_call polls board_init_answers open_answers ioctl_answers imu_reads
       stdin_reads stack_garbage errno g_data stdout calls].
  apply Z.leb_gt in Hpos. rewrite Hpos.
  apply Z.eqb_neq in Hin. rewrite Hin. cbn [negb].
  unfold bind at 1. unfold bind at 1. unfold read_imu. cbv zeta.
  cbn [log_call polls board_init_answers open_answers ioctl_answers imu_reads
       stdin_reads stack_garbage errno g_data stdout calls].
  apply Z.eqb_neq in Hne. rewrite Hne.
  eexists. split; [reflexivity|]. cbn. rewrite <- app_assoc. repeat split.
Qed.

End LoggerFacts.

(** ** The loops have fuel enough *)

Section Fuel.

Import Logger.

Lemma bind_ext_on {A B} (m : M A) (k1 k2 : A -> M B) (w : world) :
  (forall a w', m w = Done a w' -> k1 a w' = k2 a w') ->
  bind m k1 w = bind m k2 w.
Proof.
  intros H. unfold bind. destruct (m w) as [a w'|w']; [|reflexivity].
  apply H. reflexivity.
Qed.

(** Any fuel above the number of queued answers of the driver gives
    [drop_loop] the same run. *)
Lemma drop_loop_fuel (fd nfifo : Z) :
  forall (f1 f2 : nat) (cnt : Z) (w : world),
    (List.length (imu_reads w) < f1)%nat ->
    (List.length (imu_reads w) < f2)%nat ->
    drop_loop f1 fd cnt nfifo w = drop_loop f2 fd cnt nfifo w.
Proof.
  induction f1 as [|f1 IH]; intros [|f2] cnt w H1 H2; try lia.
  cbn [drop_loop]. destruct (cnt =? 0); [reflexivity|].
  apply bind_ext_on. intros r w' Hr.
  destruct (imu_reads w) as [|[r0 stored] rest] eqn:E.
  - unfold read_imu in Hr. cbv zeta in Hr.
    cbn [log_call imu_reads] in Hr. rewrite E in Hr. discriminate Hr.
  - rewrite (read_imu_done _ _ _ _ _ _ E) in Hr.
    assert (Ew : w' = after_read fd (to_size_t (sizeof_data * nfifo)) w)
      by congruence.
    subst w'.
    destruct (after_read_fields fd (to_size_t (sizeof_data * nfifo)) w)
      as (A1 & _).
    apply IH; rewrite A1, E; cbn [tl List.length] in *; lia.
Qed.

Lemma same_polls_ret {A} (a : A) : same_polls (ret a).
Proof. intros w. reflexivity. Qed.

Lemma same_polls_bind {A B} (m : M A) (k : A -> M B) :
  same_polls m -> (forall a, same_polls (k a)) -> same_polls (bind m k).
Proof.
  intros Hm Hk w. unfold bind. specialize (Hm w).
  destruct (m w) as [a w'|w']; cbn [final_world] in *.
  - rewrite Hk. exact Hm.
  - exact Hm.
Qed.

Lemma same_polls_printf (text : string) : same_polls (printf text).
Proof. intros w. reflexivity. Qed.

Lemma same_polls_get_g_data : same_polls get_g_data.
Proof. intros w. reflexivity. Qed.

Lemma same_polls_fwrite (fp : Z) dat : same_polls (fwrite fp dat).
Proof. intros w. reflexivity. Qed.

Lemma same_polls_read_imu (fd nbytes : Z) : same_polls (read_imu fd nbytes).
Proof.
  intros w. unfold read_imu. cbv zeta. cbn [log_call imu_reads].
  destruct (imu_reads w) as [|[r stored] rest]; reflexivity.
Qed.

Lemma same_polls_read_stdin (c : Z) : same_polls (read_stdin_into c).
Proof.
  intros w. unfold read_stdin_into. cbv zeta. cbn [log_call stdin_reads].
  destruct (stdin_reads w); reflexivity.
Qed.

Lemma same_polls_log2uart_each (dat : list cxd5602pwbimu_data_t) :
  same_polls (log2uart_each dat).
Proof.
  induction dat as [|d dat IH]; cbn [log2uart_each].
  - apply same_polls_ret.
  - apply same_polls_bind; [apply same_polls_printf|intros _; exact IH].
Qed.

Lemma same_polls_call_logfunc (func : logfunc_t) dat (num arg : Z) :
  same_polls (call_logfunc func dat num arg).
Proof.
  destruct func; cbn [call_logfunc]; unfold log2filebin, log2uart;
    apply same_polls_bind;
    auto using same_polls_fwrite, same_polls_log2uart_each;
    intros; apply same_polls_ret.
Qed.

Lemma same_polls_done {A} (m : M A) (w w' : world) (a : A) :
  same_polls m -> m w = Done a w' -> polls w' = polls w.
Proof.
  intros Hm H. specialize (Hm w). rewrite H in Hm. exact Hm.
Qed.

Lemma poll_done (timeout_ms : Z) (w w' : world) p :
  poll timeout_ms w = Done p w' -> polls w = p :: polls w'.
Proof.
  unfold poll. cbv zeta. cbn [log_call polls].
  destruct (polls w) as [|q rest]; intros H; inversion H; subst.
  reflexivity.
Qed.

Ltac same_polls_step :=
  first
    [ apply same_polls_ret | apply same_polls_printf
    | apply same_polls_get_g_data | apply same_polls_read_imu
    | apply same_polls_call_logfunc
    | apply (same_polls_call_logfunc fn_log2uart)
    | apply same_polls_bind; [|intros ?]
    | match goal with
      | |- same_polls (if ?b then _ else _) => destruct b
      end ].

(** Any fuel above the number of queued answers of [poll] gives the
    capture loop the same run: the fuel never ends a run that an answer of
    [poll] could have continued. *)
Lemma dump_loop_fuel (fd nfifo disp : Z) (func : logfunc_t) (arg : Z) :
  forall (f1 f2 : nat) (c : Z) (w : world),
    (List.length (polls w) < f1)%nat ->
    (List.length (polls w) < f2)%nat ->
    dump_loop f1 fd nfifo disp func arg c w =
    dump_loop f2 fd nfifo disp func arg c w.
Proof.
  induction f1 as [|f1 IH]; intros [|f2] c w H1 H2; try lia.
  cbn [dump_loop].
  apply bind_ext_on. intros p w1 Hp.
  apply poll_done in Hp. rewrite Hp in H1, H2. cbn [List.length] in H1, H2.
  destruct (poll_ret p <=? 0); [reflexivity|].
  apply bind_ext_on. intros returned w2 Hw2.
  assert (P2 : polls w2 = polls w1).
  { eapply same_polls_done; [|exact Hw2]. repeat same_polls_step. }
  destruct returned as [v|]; [reflexivity|].
  destruct (negb (Z.land (revents0 p) POLLIN =? 0)).
  - apply bind_ext_on. intros c' w3 Hw3.
    assert (P3 : polls w3 = polls w2)
      by (eapply same_polls_done; [apply same_polls_read_stdin|exact Hw3]).
    destruct (c' =? 113); [reflexivity|].
    apply IH; rewrite P3, P2; lia.
  - apply IH; rewrite P2; lia.
Qed.

End Fuel.

(** ** Timeouts and source errors *)

Section CaptureClaims.

Import Logger.

(** An [int] that is not the size asked for does not compare equal to it
    as a [size_t] either. *)
Lemma size_mismatch (r nfifo : Z) :
  - 2 ^ 31 <= r < 2 ^ 31 -> 1 <= nfifo <= MAX_NFIFO ->
  r <> sizeof_data * nfifo ->
  to_size_t r <> to_size_t (sizeof_data * nfifo).
Proof.
  unfold MAX_NFIFO, sizeof_data. intros Hr Hf Hne.
  rewrite (to_size_t_small (32 * nfifo)) by lia.
  unfold to_size_t.
  destruct (Z_lt_le_dec r 0) as [Hneg|Hpos].
  - rewrite <- (Z.mod_unique r (2 ^ 32) (-1) (r + 2 ^ 32)) by lia. lia.
  - rewrite Z.mod_small by lia. exact Hne.
Qed.

(** C6, as the code has it: in the receiver a read that times out, and one
    that delivers no byte, are ordinary outcomes: the call returns [Ok] with
    no sample and reads the port no second time.  In the transmitter's
    capture loop a [poll] that times out (it answers 0) is handled like a
    failed one: the loop prints "Poll error" and [dump_data] returns -1
    without another call. *)
Theorem timeout_outcomes :
  (forall (crc : list Z -> Z) (clock : nat -> Z) (t : nat),
      Receiver.read_binary_sensor_data crc clock
        (Receiver.ReadErr Receiver.TimedOut) t = (Receiver.Ok [], t)
      /\ Receiver.read_binary_sensor_data crc clock (Receiver.ReadOk []) t =
         (Receiver.Ok [], t))
  /\ (forall (fuel : nat) (fd nfifo disp : Z) (func : logfunc_t)
             (arg c : Z) (w : world) p rest,
      polls w = p :: rest ->
      poll_ret p <= 0 ->
      exists w',
        dump_loop (S fuel) fd nfifo disp func arg c w = Done (-1) w'
        /\ stdout w' = (stdout w ++ "Poll error" ++ nl)%string
        /\ calls w' = calls w ++ [Poll 1000]
        /\ polls w' = rest)
  /\ (forall (fd nfifo disp : Z) (func : logfunc_t) (arg : Z) (w : world)
             p rest,
      polls w = p :: rest ->
      poll_ret p <= 0 ->
      exists w',
        dump_data fd nfifo disp func arg w = Done (-1) w'
        /\ stdout w' = (stdout w ++ "Poll error" ++ nl)%string
        /\ calls w' = calls w ++ [Poll 1000]
        /\ polls w' = rest).
Proof.
  split; [|split].
  - intros crc clock t. split; reflexivity.
  - intros fuel fd nfifo disp func arg c w p rest Hp Hle.
    destruct (dump_loop_poll_le_0 fuel fd nfifo disp func arg c w p rest
                Hp Hle) as (w' & H & Ho & Hc & Hq & _).
    exists w'. repeat split; assumption.
  - intros fd nfifo disp func arg w p rest Hp Hle.
    destruct (dump_loop_poll_le_0 (List.length (polls w)) fd nfifo disp func
                arg (stack_garbage w) w p rest Hp Hle)
      as (w' & H & Ho & Hc & Hq & _).
    exists w'. repeat split; assumption.
Qed.

(** C8: when the IMU is readable and the [read] answers anything but the
    number of bytes asked for (an error answers -1), the turn of the capture
    loop prints "Read error" with what came back and [dump_data] returns -1:
    after the failed [read] no call is made, none to open the device again
    and none to read once more.  The receiver's read function likewise hands
    a port error that is not a timeout straight back. *)
Theorem read_error_stops_capture :
  (forall (fuel : nat) (fd nfifo disp : Z) (func : logfunc_t) (arg c : Z)
          (w : world) p prest r stored rrest,
      polls w = p :: prest ->
      0 < poll_ret p ->
      Z.land (revents1 p) POLLIN <> 0 ->
      imu_reads w = (r, stored) :: rrest ->
      1 <= nfifo <= MAX_NFIFO ->
      - 2 ^ 31 <= r < 2 ^ 31 ->
      r <> sizeof_data * nfifo ->
      exists w',
        dump_loop (S fuel) fd nfifo disp func arg c w = Done (-1) w'
        /\ stdout w' = (stdout w ++ "Read error : " ++ fmt_d r ++ nl)%string
        /\ calls w' = calls w ++ [Poll 1000; ReadImu fd (sizeof_data * nfifo)]
        /\ polls w' = prest
        /\ imu_reads w' = rrest)
  /\ (forall (fd nfifo disp : Z) (func : logfunc_t) (arg : Z)
             (w : world) p prest r stored rrest,
      polls w = p :: prest ->
      0 < poll_ret p ->
      Z.land (revents1 p) POLLIN <> 0 ->
      imu_reads w = (r, stored) :: rrest ->
      1 <= nfifo <= MAX_NFIFO ->
      - 2 ^ 31 <= r < 2 ^ 31 ->
      r <> sizeof_data * nfifo ->
      exists w',
        dump_data fd nfifo disp func arg w = Done (-1) w'
        /\ stdout w' = (stdout w ++ "Read error : " ++ fmt_d r ++ nl)%string
        /\ calls w' = calls w ++ [Poll 1000; ReadImu fd (sizeof_data * nfifo)]
        /\ polls w' = prest
        /\ imu_reads w' = rrest)
  /\ (forall (crc : list Z -> Z) (clock : nat -> Z)
             (kind : Receiver.ErrorKind) (t : nat),
      kind <> Receiver.TimedOut ->
      Receiver.read_binary_sensor_data crc clock (Receiver.ReadErr kind) t =
      (Receiver.Err (Receiver.FromIo kind), t)).
Proof.
  assert (Hloop : forall (fuel : nat) (fd nfifo disp : Z) (func : logfunc_t)
                         (arg c : Z) (w : world) p prest r stored rrest,
             polls w = p :: prest ->
             0 < poll_ret p ->
             Z.land (revents1 p) POLLIN <> 0 ->
             imu_reads w = (r, stored) :: rrest ->
             1 <= nfifo <= MAX_NFIFO ->
             - 2 ^ 31 <= r < 2 ^ 31 ->
             r <> sizeof_data * nfifo ->
             exists w',
               dump_loop (S fuel) fd nfifo disp func arg c w = Done (-1) w'
               /\ stdout w' =
                  (stdout w ++ "Read error : " ++ fmt_d r ++ nl)%string
               /\ calls w' =
                  calls w ++ [Poll 1000; ReadImu fd (sizeof_data * nfifo)]
               /\ polls w' = prest
               /\ imu_reads w' = rrest).
  { intros fuel fd nfifo disp func arg c w p prest r stored rrest
           Hp Hpos Hin Hr Hf Hint Hne.
    pose proof (size_mismatch r nfifo Hint Hf Hne) as Hsz.
    destruct (dump_loop_read_error fuel fd nfifo disp func arg c w p prest
                r stored rrest Hp Hpos Hin Hr Hsz)
      as (w' & H & Ho & Hc & Hq & Hi & _).
    rewrite (to_size_t_small (sizeof_data * nfifo)) in Hc
      by (unfold sizeof_data, MAX_NFIFO in *; lia).
    exists w'. repeat split; assumption. }
  split; [exact Hloop|]. split.
  - intros fd nfifo disp func arg w p prest r stored rrest
           Hp Hpos Hin Hr Hf Hint Hne.
    exact (Hloop (List.length (polls w)) fd nfifo disp func arg
             (stack_garbage w) w p prest r stored rrest
             Hp Hpos Hin Hr Hf Hint Hne).
  - intros crc clock kind t Hk. destruct kind; try reflexivity.
    contradiction Hk. reflexivity.
Qed.

End CaptureClaims.

(** ** The configuration of a run *)

Section FixedConfiguration.

Import Logger.

Lemma keeps_ret {A} (a : A) : keeps (ret a).
Proof. intros w H. exact H. Qed.

Lemma keeps_bind {A B} (m : M A) (k : A -> M B) :
  keeps m -> (forall a, keeps (k a)) -> keeps (bind m k).
Proof.
  intros Hm Hk w H. unfold bind. specialize (Hm w H).
  destruct (m w) as [a w'|w']; cbn [final_world] in *.
  - apply Hk. exact Hm.
  - exact Hm.
Qed.

Lemma keeps_blocked {A} : keeps (fun w => @Blocked A w).
Proof. intros w H. exact H. Qed.

Lemma keeps_printf (text : string) : keeps (printf text).
Proof. intros w H. exact H. Qed.

Lemma keeps_get_errno : keeps get_errno.
Proof. intros w H. exact H. Qed.

Lemma keeps_get_g_data : keeps get_g_data.
Proof. intros w H. exact H. Qed.

Lemma keeps_uninitialised_int : keeps uninitialised_int.
Proof. intros w H. exact H. Qed.

Lemma log_call_ok (c : syscall) (w : world) :
  fixed_config_call c = true -> fixed_config_log w = true ->
  fixed_config_log (log_call c w) = true.
Proof.
  unfold fixed_config_log. intros Hc H. cbn [log_call calls].
  rewrite forallb_app, H. cbn [forallb]. rewrite Hc. reflexivity.
Qed.

Lemma keeps_Serial_begin : keeps (Serial_begin 921600).
Proof. intros w H. apply log_call_ok; [reflexivity|exact H]. Qed.

Lemma keeps_board_initialize : keeps (board_cxd5602pwbimu_initialize 5).
Proof.
  intros w H. unfold board_cxd5602pwbimu_initialize. cbv zeta.
  pose proof (log_call_ok (BoardInitialize 5) w eq_refl H) as H'.
  destruct (board_init_answers _); exact H'.
Qed.

Lemma keeps_open : keeps (open CXD5602PWBIMU_DEVPATH).
Proof.
  intros w H. unfold open. cbv zeta.
  pose proof (log_call_ok (Open CXD5602PWBIMU_DEVPATH) w eq_refl H) as H'.
  destruct (open_answers _); exact H'.
Qed.

Lemma keeps_ioctl (fd : Z) (req : ioctl_request) (arg : ioctl_arg) :
  fixed_config_call (Ioctl fd req arg) = true -> keeps (ioctl fd req arg).
Proof.
  intros Hc w H. unfold ioctl. cbv zeta.
  pose proof (log_call_ok (Ioctl fd req arg) w Hc H) as H'.
  destruct (ioctl_answers _) as [|[r e] rest]; exact H'.
Qed.

Lemma keeps_read_imu (fd : Z) : keeps (read_imu fd 128).
Proof.
  intros w H. unfold read_imu. cbv zeta.
  pose proof (log_call_ok (ReadImu fd 128) w eq_refl H) as H'.
  destruct (imu_reads _) as [|[r stored] rest]; exact H'.
Qed.

Lemma keeps_poll : keeps (poll 1000).
Proof.
  intros w H. unfold poll. cbv zeta.
  pose proof (log_call_ok (Poll 1000) w eq_refl H) as H'.
  destruct (polls _); exact H'.
Qed.

Lemma keeps_read_stdin (c : Z) : keeps (read_stdin_into c).
Proof.
  intros w H. unfold read_stdin_into. cbv zeta.
  pose proof (log_call_ok ReadStdin w eq_refl H) as H'.
  destruct (stdin_reads _); exact H'.
Qed.

Ltac keeps_step :=
  first
    [ apply keeps_ret | apply keeps_printf | apply keeps_get_errno
    | apply keeps_get_g_data | apply keeps_uninitialised_int
    | apply keeps_blocked | apply keeps_Serial_begin
    | apply keeps_board_initialize | apply keeps_open
    | apply keeps_read_imu | apply keeps_poll | apply keeps_read_stdin
    | apply keeps_ioctl; reflexivity
    | apply keeps_bind; [|intros ?]
    | match goal with
      | |- keeps (if ?b then _ else _) => destruct b
      | |- keeps (match ?x with Some _ => _ | None => _ end) => destruct x
      end ].

Lemma keeps_start_sensing (fd : Z) : keeps (start_sensing fd 960 16 500 4).
Proof. unfold start_sensing. repeat keeps_step. Qed.

Lemma keeps_drop_loop (fd : Z) (fuel : nat) :
  forall cnt, keeps (drop_loop fuel fd cnt 4).
Proof.
  induction fuel as [|fuel IH]; intros cnt; cbn [drop_loop].
  - apply keeps_blocked.
  - change (to_size_t (sizeof_data * 4)) with 128.
    repeat keeps_step. apply IH.
Qed.

Lemma keeps_drop_50msdata (fd samprate : Z) :
  keeps (drop_50msdata fd samprate 4).
Proof.
  intros w H. unfold drop_50msdata.
  apply (keeps_bind (drop_loop _ fd _ 4) (fun _ => ret 0));
    [apply keeps_drop_loop|intros; apply keeps_ret|exact H].
Qed.

Lemma keeps_log2uart_each (dat : list cxd5602pwbimu_data_t) :
  keeps (log2uart_each dat).
Proof.
  induction dat as [|d dat IH]; cbn [log2uart_each]; repeat keeps_step.
  exact IH.
Qed.

Lemma keeps_log2uart (dat : list cxd5602pwbimu_data_t) (num arg : Z) :
  keeps (log2uart dat num arg).
Proof.
  unfold log2uart. apply keeps_bind; [apply keeps_log2uart_each|].
  intros; apply keeps_ret.
Qed.

Lemma keeps_dump_loop (fd : Z) (fuel : nat) :
  forall c, keeps (dump_loop fuel fd 4 0 fn_log2uart 0 c).
Proof.
  induction fuel as [|fuel IH]; intros c; cbn [dump_loop].
  - apply keeps_blocked.
  - change (to_size_t (sizeof_data * 4)) with 128.
    cbn [call_logfunc Z.eqb negb andb].
    repeat first [apply IH | apply keeps_log2uart | keeps_step].
Qed.

Lemma keeps_dump_data (fd : Z) : keeps (dump_data fd 4 0 fn_log2uart 0).
Proof.
  intros w H. unfold dump_data.
  apply (keeps_bind uninitialised_int
           (fun c => dump_loop _ fd 4 0 fn_log2uart 0 c));
    [apply keeps_uninitialised_int|intros; apply keeps_dump_loop|exact H].
Qed.

Lemma keeps_setup : keeps setup.
Proof.
  unfold setup. cbv zeta.
  repeat first [apply keeps_start_sensing | apply keeps_drop_50msdata
               | apply keeps_dump_data | keeps_step].
Qed.

(** A turn of the capture loop as [setup] runs it, the IMU readable and a
    full block read: the four samples go to the UART as text, and the loop
    goes round again. *)
Lemma dump_loop_logs_to_uart (fuel : nat) (fd c : Z) (w : world)
    p prest stored rrest :
  polls w = p :: prest ->
  0 < poll_ret p ->
  Z.land (revents1 p) POLLIN <> 0 ->
  Z.land (revents0 p) POLLIN = 0 ->
  imu_reads w = (128, stored) :: rrest ->
  List.length stored = 4%nat ->
  exists w1,
    dump_loop (S fuel) fd 4 0 fn_log2uart 0 c w =
    dump_loop fuel fd 4 0 fn_log2uart 0 c w1
    /\ stdout w1 =
       (stdout w ++ uart_text stored)%string
    /\ calls w1 = calls w ++ [Poll 1000; ReadImu fd 128]
    /\ polls w1 = prest
    /\ imu_reads w1 = rrest.
Proof.
  intros Hp Hpos Hin H0 Hr Hlen.
  destruct w as [bi op io rd pl sr sg en gd so cl]. cbn in Hp, Hr.
  subst pl rd.
  destruct stored as [|s1 [|s2 [|s3 [|s4 [|s5 stored]]]]];
    try discriminate Hlen.
  cbn [dump_loop]. unfold bind at 1. unfold poll. cbv zeta.
  cbn [log_call polls board_init_answers open_answers ioctl_answers imu_reads
       stdin_reads stack_garbage errno g_data stdout calls].
  apply Z.leb_gt in Hpos. rewrite Hpos.
  apply Z.eqb_neq in Hin. rewrite Hin. rewrite H0. cbn [negb Z.eqb].
  change (to_size_t (sizeof_data * 4)) with 128.
  unfold bind at 1. unfold bind at 1. unfold read_imu. cbv zeta.
  cbn [log_call polls board_init_answers open_answers ioctl_answers imu_reads
       stdin_reads stack_garbage errno g_data stdout calls].
  change (to_size_t 128 =? 128) with true. cbv iota.
  unfold bind, get_g_data, call_logfunc, log2uart, bind, ret.
  cbn [g_data app List.length skipn Z.to_nat Pos.to_nat Pos.iter_op Nat.add
       firstn log2uart_each andb negb Z.eqb].
  unfold bind, printf.
  cbn [board_init_answers open_answers ioctl_answers imu_reads polls
       stdin_reads stack_garbage errno g_data stdout calls].
  eexists. split; [reflexivity|].
  cbn [board_init_answers open_answers ioctl_answers imu_reads polls
       stdin_reads stack_garbage errno g_data stdout calls uart_text].
  rewrite <- !app_assoc. cbn [app].
  repeat split.
  rewrite StringFacts.append_nil_r, !StringFacts.append_assoc. reflexivity.
Qed.

(** C10: [setup] takes no argument and reads no option.  Whatever the
    system answers, every call it makes is one of the fixed configuration:
    sampling rate 960, accelerometer range 16, gyroscope range 500, FIFO
    threshold 4, reads of four samples, and never a write to a file; every
    block the capture loop reads is printed on the UART as text, once; the
    run of the example world makes exactly these calls and prints the
    configuration line and one line per sample.  The help text, which
    [setup] never prints, documents the flags -s, -a, -g, -f, -o and -d. *)
Theorem setup_uses_fixed_configuration :
  (forall w : world,
      fixed_config_log w = true ->
      fixed_config_log (final_world (setup w)) = true)
  /\ (forall (fuel : nat) (fd c : Z) (w : world) p prest stored rrest,
      polls w = p :: prest ->
      0 < poll_ret p ->
      Z.land (revents1 p) POLLIN <> 0 ->
      Z.land (revents0 p) POLLIN = 0 ->
      imu_reads w = (128, stored) :: rrest ->
      List.length stored = 4%nat ->
      exists w1,
        dump_loop (S fuel) fd 4 0 fn_log2uart 0 c w =
        dump_loop fuel fd 4 0 fn_log2uart 0 c w1
        /\ stdout w1 = (stdout w ++ uart_text stored)%string
        /\ calls w1 = calls w ++ [Poll 1000; ReadImu fd 128])
  /\ calls (final_world (setup example_world)) =
     [SerialBegin 921600; BoardInitialize 5; Open "/dev/imu0";
      Ioctl 3 SNIOC_SSAMPRATE (ArgInt 960);
      Ioctl 3 SNIOC_SDRANGE (ArgRange 16 500);
      Ioctl 3 SNIOC_SFIFOTHRESH (ArgInt 4);
      Ioctl 3 SNIOC_ENABLE (ArgInt 1)]
     ++ repeat (ReadImu 3 128) 12
     ++ [Poll 1000; ReadImu 3 128; Poll 1000]
  /\ stdout (final_world (setup example_world)) =
     (start_line
      ++ uart_text [numbered 48; numbered 49; numbered 50; numbered 51]
      ++ "Poll error" ++ nl)%string
  /\ forallb (mentions help_text) ["-s:"; "-a:"; "-g:"; "-f:"; "-o:"; "-d:"]
     = true
  /\ mentions (stdout (final_world (setup example_world))) "Usage:" = false.
Proof.
  split; [exact keeps_setup|]. split; [|split; [|split; [|split]]].
  - intros fuel fd c w p prest stored rrest Hp Hpos Hin H0 Hr Hlen.
    destruct (dump_loop_logs_to_uart fuel fd c w p prest stored rrest
                Hp Hpos Hin H0 Hr Hlen) as (w1 & H & Ho & Hc & _).
    exists w1. split; [exact H|]. split; [exact Ho|exact Hc].
  - vm_compute. reflexivity.
  - vm_compute. reflexivity.
  - vm_compute. reflexivity.
  - vm_compute. reflexivity.
Qed.

End FixedConfiguration.

(** ** The text line: printed by the transmitter, read by the receiver *)

Section TextRoundTrip.

Import TextDecoder.

Lemma bytes_of_string_append (a b : string) :
  bytes_of_string (a ++ b) = bytes_of_string a ++ bytes_of_string b.
Proof.
  unfold bytes_of_string.
  rewrite StringFacts.list_ascii_of_string_append, map_app. reflexivity.
Qed.

Lemma hex_value_digit (d : Z) :
  0 <= d < 16 -> hex_value (code (Logger.hex_digit d)) = Some d.
Proof.
  intros H.
  assert (C : d = 0 \/ d = 1 \/ d = 2 \/ d = 3 \/ d = 4 \/ d = 5 \/ d = 6
              \/ d = 7 \/ d = 8 \/ d = 9 \/ d = 10 \/ d = 11 \/ d = 12
              \/ d = 13 \/ d = 14 \/ d = 15) by lia.
  repeat (destruct C as [->|C]; [reflexivity|]). subst d. reflexivity.
Qed.

(** A printed digit is neither a comma nor a line end. *)
Lemma digit_plain (d : Z) :
  let b := code (Logger.hex_digit d) in
  (b =? COMMA) = false /\ (b =? CR) = false /\ (b =? LF) = false.
Proof.
  destruct d as [|p|p]; try (repeat split; reflexivity).
  do 4 (destruct p as [p|p|]; try (repeat split; reflexivity)).
Qed.

Lemma nibble_mod (u k : Z) :
  0 <= k -> Z.land (Z.shiftr u (4 * k)) 15 = (u / 2 ^ (4 * k)) mod 16.
Proof.
  intros H. change 15 with (Z.ones 4).
  rewrite Z.land_ones, Z.shiftr_div_pow2 by lia. reflexivity.
Qed.

Lemma nibble_range (u k : Z) : 0 <= nibble u k < 16.
Proof. unfold nibble. apply Z.mod_pos_bound. lia. Qed.

Lemma bytes_of_fmt_08x (u : Z) : bytes_of_string (Logger.fmt_08x u) = hex8 u.
Proof.
  unfold bytes_of_string, Logger.fmt_08x, hex8.
  rewrite list_ascii_of_string_of_list_ascii, map_map.
  cbn [map]. rewrite !nibble_mod by lia. reflexivity.
Qed.

Lemma nibbles_sum (u : Z) :
  u32 u ->
  ((((((nibble u 7 * 16 + nibble u 6) * 16 + nibble u 5) * 16 + nibble u 4)
      * 16 + nibble u 3) * 16 + nibble u 2) * 16 + nibble u 1) * 16
  + nibble u 0 = u.
Proof.
  unfold u32, nibble. intros Hu.
  change (2 ^ (4 * 0)) with 1. change (2 ^ (4 * 1)) with 16.
  change (2 ^ (4 * 2)) with (16 * 16).
  change (2 ^ (4 * 3)) with (16 * 16 * 16).
  change (2 ^ (4 * 4)) with (16 * 16 * 16 * 16).
  change (2 ^ (4 * 5)) with (16 * 16 * 16 * 16 * 16).
  change (2 ^ (4 * 6)) with (16 * 16 * 16 * 16 * 16 * 16).
  change (2 ^ (4 * 7)) with (16 * 16 * 16 * 16 * 16 * 16 * 16).
  change (2 ^ 32) with (16 * 16 * 16 * 16 * 16 * 16 * 16 * 16) in Hu.
  rewrite <- !Z.div_div by lia. rewrite Z.div_1_r.
  set (q1 := u / 16). set (q2 := q1 / 16). set (q3 := q2 / 16).
  set (q4 := q3 / 16). set (q5 := q4 / 16). set (q6 := q5 / 16).
  set (q7 := q6 / 16).
  pose proof (Z.div_mod u 16 ltac:(lia)) as H0. fold q1 in H0.
  pose proof (Z.div_mod q1 16 ltac:(lia)) as H1. fold q2 in H1.
  pose proof (Z.div_mod q2 16 ltac:(lia)) as H2. fold q3 in H2.
  pose proof (Z.div_mod q3 16 ltac:(lia)) as H3. fold q4 in H3.
  pose proof (Z.div_mod q4 16 ltac:(lia)) as H4. fold q5 in H4.
  pose proof (Z.div_mod q5 16 ltac:(lia)) as H5. fold q6 in H5.
  pose proof (Z.div_mod q6 16 ltac:(lia)) as H6. fold q7 in H6.
  assert (H7 : 0 <= q7 < 16).
  { unfold q7, q6, q5, q4, q3, q2, q1. split.
    - repeat apply Z.div_pos; lia.
    - repeat (apply Z.div_lt_upper_bound; [lia|]). lia. }
  rewrite (Z.mod_small q7) by lia. lia.
Qed.

Lemma parse_hex8_hex8 (u : Z) : u32 u -> parse_hex8 (hex8 u) = Some u.
Proof.
  intros Hu. unfold parse_hex8, hex8. cbn [map List.length Nat.eqb hex_fold].
  rewrite !hex_value_digit by apply nibble_range.
  f_equal. rewrite <- (nibbles_sum u Hu) at 9. lia.
Qed.

Lemma hex8_plain (u : Z) :
  Forall (fun b => (b =? COMMA) = false /\ (b =? CR) = false
                   /\ (b =? LF) = false) (hex8 u).
Proof.
  unfold hex8. cbn [map]. repeat constructor; apply digit_plain.
Qed.

Lemma split_fields_plain (f : list Z) :
  Forall (fun b => (b =? COMMA) = false /\ (b =? CR) = false
                   /\ (b =? LF) = false) f ->
  split_fields f = [f]
  /\ forall rest, split_fields (f ++ COMMA :: rest) = f :: split_fields rest.
Proof.
  induction 1 as [|b f [Hb _] _ [IH1 IH2]]; cbn [split_fields app].
  - split; [reflexivity|]. intros rest. reflexivity.
  - rewrite Hb, IH1. split; [reflexivity|].
    intros rest. rewrite IH2. reflexivity.
Qed.

Lemma bytes_of_uart_line (d : Logger.cxd5602pwbimu_data_t) :
  bytes_of_string (Logger.uart_line d) = line_body d ++ [LF].
Proof.
  unfold Logger.uart_line, line_body.
  rewrite !bytes_of_string_append, !bytes_of_fmt_08x.
  change (bytes_of_string ",") with [COMMA].
  change (bytes_of_string Logger.nl) with [LF].
  repeat first [rewrite <- app_assoc | progress cbn [app]]. reflexivity.
Qed.

Lemma f32_bits_id (x : f32) : f32_from_bits (f32_to_bits x) = x.
Proof. destruct x. reflexivity. Qed.

(** What the transmitter prints for a record, the receiver's line decoder
    reads back as that record. *)
Lemma decode_line_body (d : Logger.cxd5602pwbimu_data_t) (now : Z) :
  data_u32 d -> decode_text_line (line_body d) now = Some (sample_of d now).
Proof.
  intros (H1 & H2 & H3 & H4 & H5 & H6 & H7 & H8).
  unfold decode_text_line, line_body.
  repeat rewrite (proj2 (split_fields_plain _ (hex8_plain _))).
  rewrite (proj1 (split_fields_plain _ (hex8_plain _))).
  cbn [map]. rewrite !parse_hex8_hex8 by assumption.
  unfold sample_of. rewrite !f32_bits_id. reflexivity.
Qed.


Section Feed.

Variable clock : nat -> Z.



End Feed.





End TextRoundTrip.

(** ** The transmitter on concrete runs *)

Module LoggerExamples.

Import Logger.
Import Scenario.



(** C6 refuted: the capture loop of the transmitter, its first [poll] timed
    out with nothing to read.  The loop does not go round again: it prints
    "Poll error" and [dump_data] returns -1, the block the IMU had ready and
    the next answer of [poll] left where they were. *)
Lemma poll_timeout_ends_capture :
  exists w',
    dump_data 3 4 0 fn_log2uart 0 timeout_world = Done (-1) w'
    /\ stdout w' = ("Poll error" ++ nl)%string
    /\ calls w' = [Poll 1000]
    /\ polls w' = [mkPoll 1 0 1]
    /\ imu_reads w' = [numbered_block 0].
Proof.
  eexists. split; [vm_compute; reflexivity|]. repeat split.
Qed.

Lemma timeout_outcomes_witness :
  polls timeout_world = mkPoll 0 0 0 :: [mkPoll 1 0 1]
  /\ poll_ret (mkPoll 0 0 0) <= 0
  /\ exists w',
      dump_data 3 4 0 fn_log2uart 0 timeout_world = Done (-1) w'
      /\ stdout w' = (stdout timeout_world ++ "Poll error" ++ nl)%string
      /\ calls w' = calls timeout_world ++ [Poll 1000]
      /\ polls w' = [mkPoll 1 0 1].
Proof.
  assert (Hp : polls timeout_world = mkPoll 0 0 0 :: [mkPoll 1 0 1])
    by reflexivity.
  assert (Hle : poll_ret (mkPoll 0 0 0) <= 0) by (cbn; lia).
  split; [exact Hp|]. split; [exact Hle|].
  exact (proj2 (proj2 timeout_outcomes) 3 4 0 fn_log2uart 0 timeout_world
           (mkPoll 0 0 0) [mkPoll 1 0 1] Hp Hle).
Defined.

Lemma read_error_stops_capture_witness :
  polls read_error_world = mkPoll 1 0 1 :: [mkPoll 1 0 1]
  /\ 0 < poll_ret (mkPoll 1 0 1)
  /\ Z.land (revents1 (mkPoll 1 0 1)) POLLIN <> 0
  /\ imu_reads read_error_world = (-1, []) :: [numbered_block 0]
  /\ 1 <= 4 <= MAX_NFIFO
  /\ - 2 ^ 31 <= -1 < 2 ^ 31
  /\ -1 <> sizeof_data * 4
  /\ exists w',
      dump_data 3 4 0 fn_log2uart 0 read_error_world = Done (-1) w'
      /\ stdout w' =
         (stdout read_error_world ++ "Read error : " ++ fmt_d (-1) ++ nl)%string
      /\ calls w' =
         calls read_error_world ++ [Poll 1000; ReadImu 3 (sizeof_data * 4)]
      /\ polls w' = [mkPoll 1 0 1]
      /\ imu_reads w' = [numbered_block 0].
Proof.
  assert (H1 : polls read_error_world = mkPoll 1 0 1 :: [mkPoll 1 0 1])
    by reflexivity.
  assert (H2 : 0 < poll_ret (mkPoll 1 0 1)) by (cbn; lia).
  assert (H3 : Z.land (revents1 (mkPoll 1 0 1)) POLLIN <> 0)
    by (cbn; discriminate).
  assert (H4 : imu_reads read_error_world = (-1, []) :: [numbered_block 0])
    by reflexivity.
  assert (H5 : 1 <= 4 <= MAX_NFIFO) by (unfold MAX_NFIFO; lia).
  assert (H6 : - 2 ^ 31 <= -1 < 2 ^ 31) by lia.
  assert (H7 : -1 <> sizeof_data * 4) by (unfold sizeof_data; lia).
  split; [exact H1|]. split; [exact H2|]. split; [exact H3|].
  split; [exact H4|]. split; [exact H5|]. split; [exact H6|].
  split; [exact H7|].
  exact (proj1 (proj2 read_error_stops_capture) 3 4 0 fn_log2uart 0
           read_error_world (mkPoll 1 0 1) [mkPoll 1 0 1] (-1) []
           [numbered_block 0] H1 H2 H3 H4 H5 H6 H7).
Defined.

Lemma drop_50msdata_discards_witness :
  0 <= 960 < 2 ^ 31
  /\ 1 <= 4 <= MAX_NFIFO
  /\ (Z.to_nat (drop_count 960 4 / 4) <=
      List.length (imu_reads example_world))%nat
  /\ exists w',
      drop_50msdata 3 960 4 example_world = Done 0 w'
      /\ imu_reads w' =
         skipn (Z.to_nat (drop_count 960 4 / 4)) (imu_reads example_world)
      /\ calls w' =
         calls example_world
         ++ repeat (ReadImu 3 (sizeof_data * 4))
                   (Z.to_nat (drop_count 960 4 / 4))
      /\ Z.of_nat (Z.to_nat (drop_count 960 4 / 4)) * 4 = drop_count 960 4
      /\ stdout w' = stdout example_world.
Proof.
  assert (H1 : 0 <= 960 < 2 ^ 31) by lia.
  assert (H2 : 1 <= 4 <= MAX_NFIFO) by (unfold MAX_NFIFO; lia).
  assert (H3 : (Z.to_nat (drop_count 960 4 / 4) <=
                List.length (imu_reads example_world))%nat)
    by (apply Nat.leb_le; vm_compute; reflexivity).
  split; [exact H1|]. split; [exact H2|]. split; [exact H3|].
  exact (proj2 (proj2 (proj2
           (proj1 drop_50msdata_discards 3 960 4 example_world H1 H2 H3)))).
Defined.

Lemma setup_uses_fixed_configuration_witness :
  fixed_config_log example_world = true
  /\ fixed_config_log (final_world (setup example_world)) = true.
Proof.
  assert (H : fixed_config_log example_world = true) by reflexivity.
  split; [exact H|].
  exact (proj1 setup_uses_fixed_configuration example_world H).
Defined.

End LoggerExamples.

(* ------------------------------------------------------------------------- *)
(** * Further properties of the receiver *)

Section ReceiverMore.

Import Receiver.
Import Pieces.

Variable calculate_crc8 : list Z -> Z.
Variable clock : nat -> Z.

Local Abbreviation parse := (parse_binary_sensor_data calculate_crc8).
Local Abbreviation step := (scan_step calculate_crc8 clock).
Local Abbreviation loop := (scan_loop calculate_crc8 clock).
Local Abbreviation scan_all := (scan calculate_crc8 clock).
Local Abbreviation read := (read_binary_sensor_data calculate_crc8 clock).

Lemma at_slice (buffer : list Z) (lo hi k : nat) :
  (k < hi - lo)%nat -> at_ (slice buffer lo hi) k = at_ buffer (lo + k).
Proof.
  intros H. unfold at_, slice. rewrite nth_firstn, nth_skipn.
  apply Nat.ltb_lt in H. rewrite H. reflexivity.
Qed.

Lemma le_word_slice (buffer : list Z) (lo hi k : nat) :
  (k + 3 < hi - lo)%nat ->
  le_word (slice buffer lo hi) k = le_word buffer (lo + k).
Proof.
  intros H. unfold le_word. rewrite !at_slice by lia.
  rewrite !Nat.add_assoc. reflexivity.
Qed.

(** The fields the parser reads are those of the 32 bytes after the
    marker. *)
Lemma decode_payload_slice (buffer : list Z) (i : nat) (now : Z) :
  decode_payload (slice buffer (i + 2) (i + 34)) now =
  mkSensorData (le_word buffer (i + 2))
    (f32_from_bits (le_word buffer (i + 6)))
    (f32_from_bits (le_word buffer (i + 10)))
    (f32_from_bits (le_word buffer (i + 14)))
    (f32_from_bits (le_word buffer (i + 18)))
    (f32_from_bits (le_word buffer (i + 22)))
    (f32_from_bits (le_word buffer (i + 26)))
    (f32_from_bits (le_word buffer (i + 30))) now.
Proof.
  unfold decode_payload. rewrite !le_word_slice by lia.
  rewrite <- !Nat.add_assoc. cbn [Nat.add]. reflexivity.
Qed.

(** X1: the parser answers [Ok] exactly when the buffer holds 35 bytes from
    the start index on, the first two are the marker AA 55 and the last is
    the checksum of the 32 between; the sample is then the one these 32
    bytes spell out and the next index is 35 further.  It answers an error
    exactly when one of the three fails, with the message of the first that
    does: length, then marker, then checksum. *)
Theorem parse_characterised (buffer : list Z) (i : nat) (now : Z) :
  (forall d j,
      parse buffer i now = Ok (d, j) <->
      (i + 35 <= List.length buffer)%nat
      /\ at_ buffer i = 170 /\ at_ buffer (i + 1) = 85
      /\ calculate_crc8 (slice buffer (i + 2) (i + 34)) = at_ buffer (i + 34)
      /\ d = decode_payload (slice buffer (i + 2) (i + 34)) now
      /\ j = (i + 35)%nat)
  /\ (forall e,
      parse buffer i now = Err e <->
      ((List.length buffer < i + 35)%nat
       /\ e = FromReceiver (ParseError "Incomplete data frame"))
      \/ ((i + 35 <= List.length buffer)%nat
          /\ (at_ buffer i <> 170 \/ at_ buffer (i + 1) <> 85)
          /\ e = FromReceiver (ParseError "Invalid frame header"))
      \/ ((i + 35 <= List.length buffer)%nat
          /\ at_ buffer i = 170 /\ at_ buffer (i + 1) = 85
          /\ calculate_crc8 (slice buffer (i + 2) (i + 34))
             <> at_ buffer (i + 34)
          /\ e = FromReceiver (ParseError "CRC check failed"))).
Proof.
  rewrite decode_payload_slice. unfold parse_binary_sensor_data.
  destruct (List.length buffer <? i + 35)%nat eqn:El;
    [apply Nat.ltb_lt in El|apply Nat.ltb_ge in El].
  { split; intros; split; intros H.
    - discriminate H.
    - lia.
    - inversion H; subst. left. split; [lia|reflexivity].
    - destruct H as [[_ ->]|[[H _]|[H _]]]; [reflexivity|lia|lia]. }
  destruct (at_ buffer i =? 170) eqn:E0;
    [apply Z.eqb_eq in E0|apply Z.eqb_neq in E0]; cbn [negb orb].
  2:{ split; intros; split; intros H.
      - discriminate H.
      - tauto.
      - inversion H; subst. right; left. tauto.
      - destruct H as [[H _]|[(_ & _ & ->)|(_ & H & _)]];
          [lia|reflexivity|tauto]. }
  destruct (at_ buffer (i + 1) =? 85) eqn:E1;
    [apply Z.eqb_eq in E1|apply Z.eqb_neq in E1]; cbn [negb].
  2:{ split; intros; split; intros H.
      - discriminate H.
      - tauto.
      - inversion H; subst. right; left. tauto.
      - destruct H as [[H _]|[(_ & _ & ->)|(_ & _ & H & _)]];
          [lia|reflexivity|tauto]. }
  destruct (calculate_crc8 _ =? at_ buffer (i + 34)) eqn:Ec;
    [apply Z.eqb_eq in Ec|apply Z.eqb_neq in Ec]; cbn [negb].
  - split; intros; split; intros H.
    + inversion H; subst. repeat split; assumption.
    + destruct H as (_ & _ & _ & _ & -> & ->). reflexivity.
    + discriminate H.
    + destruct H as [[H _]|[(_ & [H|H] & _)|(_ & _ & _ & H & _)]];
        [lia|tauto|tauto|tauto].
  - split; intros; split; intros H.
    + discriminate H.
    + tauto.
    + inversion H; subst. right; right. tauto.
    + destruct H as [[H _]|[(_ & [H|H] & _)|(_ & _ & _ & _ & ->)]];
        [lia|tauto|tauto|reflexivity].
Qed.

Lemma loop_invariant (P : scan_state -> Prop) (buffer : list Z) (n : nat) :
  (forall st, P st -> (index st < n)%nat -> P (step buffer n st)) ->
  forall fuel st, P st -> P (loop fuel buffer n st).
Proof.
  intros Hstep. induction fuel as [|fuel IH]; intros st H; cbn [scan_loop].
  - exact H.
  - destruct (index st <? n)%nat eqn:E; [|exact H].
    apply Nat.ltb_lt in E. apply IH, Hstep; assumption.
Qed.

(** The loop ends only once the scan position has reached the end of the
    bytes received. *)
Lemma loop_ends (buffer : list Z) (n : nat) :
  forall fuel st,
    (n - index st <= fuel)%nat -> (n <= index (loop fuel buffer n st))%nat.
Proof.
  induction fuel as [|fuel IH]; intros st H; cbn [scan_loop]; [lia|].
  destruct (index st <? n)%nat eqn:E.
  - apply IH. pose proof (step_progress calculate_crc8 clock buffer n st).
    lia.
  - apply Nat.ltb_ge in E. exact E.
Qed.

(** X2: whatever the bytes, a read returns samples that each stand for a
    marker-and-checksum frame of the buffer; it reads the clock once per
    sample, in order, so the system timestamps are the successive clock
    readings; and as a frame takes 35 bytes and starts before the last byte
    received, [n] bytes give at most [(n + 33) / 35] samples; the scan
    stops at or after the end of the bytes received. *)
Theorem read_sound (bytes : list Z) (t : nat) :
  let buffer := fill_buffer bytes in
  let n := Nat.min (List.length bytes) BUFFER_LEN in
  exists decoded,
    read (ReadOk bytes) t = (Ok decoded, (t + List.length decoded)%nat)
    /\ Forall (frame_at calculate_crc8 buffer n) decoded
    /\ map system_timestamp decoded = map clock (seq t (List.length decoded))
    /\ (35 * List.length decoded <= n + 33)%nat
    /\ (n <= index (loop n buffer n (mkScan 0 [] t)))%nat.
Proof.
  intros buffer n.
  set (Inv := fun st : scan_state =>
         ticks st = (t + List.length (result st))%nat
         /\ Forall (frame_at calculate_crc8 buffer n) (result st)
         /\ map system_timestamp (result st) =
            map clock (seq t (List.length (result st)))
         /\ (35 * List.length (result st) <= index st <= n + 33)%nat).
  assert (Hstep : forall st, Inv st -> (index st < n)%nat ->
                             Inv (step buffer n st)).
  { intros st (It & If & Is & Ii) Hlt. unfold scan_step.
    destruct ((index st + 1 <? n)%nat && (at_ buffer (index st) =? 170)
              && (at_ buffer (index st + 1) =? 85)) eqn:Em.
    - apply andb_true_iff in Em as [Em _].
      apply andb_true_iff in Em as [Em _]. apply Nat.ltb_lt in Em.
      destruct (parse buffer (index st) (clock (ticks st)))
        as [[d j]|e] eqn:Ep.
      + apply (proj1 (parse_characterised buffer (index st) _)) in Ep.
        destruct Ep as (Hl & H0 & H1 & Hc & Hd & Hj).
        unfold Inv. cbn [ticks result index].
        rewrite length_app, map_app, Is. cbn [List.length map].
        assert (Hts : system_timestamp d = clock (ticks st))
          by (rewrite Hd; reflexivity).
        repeat split.
        * lia.
        * apply Forall_app. split; [exact If|]. constructor; [|constructor].
          exists (index st). rewrite Hts. repeat split; assumption.
        * rewrite Nat.add_1_r, seq_S, map_app, Hts, It. reflexivity.
        * lia.
        * lia.
      + unfold Inv. cbn [ticks result index]. repeat split; try assumption;
          lia.
    - unfold Inv. cbn [ticks result index]. repeat split; try assumption;
        lia. }
  assert (H0 : Inv (mkScan 0 [] t)).
  { unfold Inv. cbn [ticks result index List.length map seq].
    repeat split; try lia. constructor. }
  pose proof (loop_invariant Inv buffer n Hstep n _ H0) as (It & If & Is & Ii).
  pose proof (loop_ends buffer n n (mkScan 0 [] t)) as He.
  cbn [index] in He. specialize (He ltac:(lia)).
  unfold read_binary_sensor_data. fold n. fold buffer.
  destruct (n =? 0)%nat eqn:En.
  - exists []. apply Nat.eqb_eq in En. cbn [List.length map seq].
    rewrite Nat.add_0_r. repeat split; try lia. constructor.
  - exists (result (loop n buffer n (mkScan 0 [] t))).
    rewrite <- It. repeat split; try assumption; lia.
Qed.

(** X3: the parser checks the length of the whole 4096-byte buffer, not the
    count of bytes received.  So when a read ends inside a frame (the
    marker and up to 32 more bytes received) the frame is parsed as if the
    zeros the buffer was created with had been received after it: if the
    checksum of the payload so completed is zero, the read returns a sample
    for a frame that never arrived in full. *)
Theorem partial_frame_padded (body : list Z) (t : nat) :
  (List.length body <= 32)%nat ->
  let payload := body ++ repeat 0 (32 - List.length body) in
  calculate_crc8 payload = 0 ->
  read (ReadOk (170 :: 85 :: body)) t =
  (Ok [decode_payload payload (clock t)], S t).
Proof.
  intros Hlen payload Hcrc.
  assert (Lp : List.length payload = 32%nat).
  { unfold payload. rewrite length_app, repeat_length. lia. }
  rewrite read_scan by (cbn [List.length]; unfold BUFFER_LEN; lia).
  cbv zeta.
  assert (Eb : (170 :: 85 :: body)
               ++ repeat 0 (BUFFER_LEN - List.length (170 :: 85 :: body)) =
               [] ++ frame_bytes payload 0 ++ repeat 0 (BUFFER_LEN - 35)).
  { unfold frame_bytes, payload, BUFFER_LEN. cbn [app List.length].
    do 2 f_equal. rewrite <- !app_assoc. f_equal.
    change ([0] ++ repeat 0 (4096 - 35)) with (repeat 0 (S (4096 - 35))).
    rewrite <- repeat_app. f_equal. lia. }
  rewrite Eb.
  rewrite scan_lt by (cbn [index List.length]; lia).
  rewrite (step_parse_ok calculate_crc8 clock _ _ _
             (decode_payload payload (clock t)) 35%nat).
  - rewrite scan_ge by (cbn [index List.length]; lia). reflexivity.
  - cbn [index List.length]. lia.
  - reflexivity.
  - reflexivity.
  - cbn [index ticks].
    rewrite (parse_frame_at calculate_crc8 [] payload _ 0 _ Lp).
    rewrite Hcrc. reflexivity.
Qed.

Lemma has_marker_cons2 (a b : Z) (l : list Z) :
  has_marker (a :: b :: l) = false ->
  (a =? 170) && (b =? 85) = false /\ has_marker (b :: l) = false.
Proof.
  cbn [has_marker]. intros H. apply orb_false_iff in H. exact H.
Qed.

Lemma hd_app_one (j post : list Z) :
  hd 0 (j ++ [hd 0 post]) = hd 0 (j ++ post).
Proof. destruct j; reflexivity. Qed.

Lemma hd_pad (l : list Z) (k : nat) : hd 0 (l ++ repeat 0 k) = hd 0 l.
Proof. destruct l; [destruct k|]; reflexivity. Qed.

(** Bytes that hold no marker, nor make one with the byte behind them, are
    stepped over one by one. *)
Lemma scan_junk_bytes (j : list Z) :
  forall (pre post : list Z) (n : nat) r t,
    has_marker (j ++ [hd 0 post]) = false ->
    (List.length pre + List.length j <= n)%nat ->
    scan_all (pre ++ j ++ post) n (mkScan (List.length pre) r t) =
    scan_all (pre ++ j ++ post) n
             (mkScan (List.length pre + List.length j) r t).
Proof.
  induction j as [|a j IH]; intros pre post n r t Hm Hn.
  - cbn [List.length]. rewrite Nat.add_0_r. reflexivity.
  - cbn [List.length] in Hn.
    assert (Hb : (a =? 170) && (hd 0 (j ++ post) =? 85) = false
                 /\ has_marker (j ++ [hd 0 post]) = false).
    { rewrite <- hd_app_one. cbn [app] in Hm.
      destruct (j ++ [hd 0 post]) as [|b l] eqn:E.
      - destruct j; discriminate E.
      - cbn [hd]. apply has_marker_cons2. exact Hm. }
    destruct Hb as [Hab Hrest].
    rewrite scan_lt by (cbn [index]; lia).
    rewrite step_no_marker; cbn [index result ticks].
    + replace (pre ++ (a :: j) ++ post) with ((pre ++ [a]) ++ j ++ post)
        by (rewrite <- app_assoc; reflexivity).
      replace (List.length pre + 1)%nat with (List.length (pre ++ [a]))
        by (rewrite length_app; reflexivity).
      rewrite IH by (try assumption; rewrite length_app;
                     cbn [List.length]; lia).
      rewrite length_app. cbn [List.length]. do 2 f_equal. lia.
    + rewrite <- (Nat.add_0_r (List.length pre)) at 2.
      rewrite !at_app. cbn [app at_ nth].
      replace (nth 0 (j ++ post) 0) with (hd 0 (j ++ post))
        by (destruct (j ++ post); reflexivity).
      rewrite <- andb_assoc, Hab. apply andb_false_r.
Qed.

Local Abbreviation bytes_of := (pieces_bytes calculate_crc8).

Ltac app_norm := repeat first [rewrite <- app_assoc | progress cbn [app]].

Lemma bytes_of_cons (p : piece) (ps : list piece) :
  bytes_of (p :: ps) = piece_bytes calculate_crc8 p ++ bytes_of ps.
Proof. reflexivity. Qed.

Lemma frame_bytes_length (payload : list Z) (c : Z) :
  List.length payload = 32%nat ->
  List.length (frame_bytes payload c) = 35%nat.
Proof.
  intros H. unfold frame_bytes.
  repeat (rewrite length_app; cbn [List.length]). lia.
Qed.

Lemma good_payloads_32 (ps : list piece) :
  well_cut calculate_crc8 ps ->
  Forall (fun q => List.length q = 32%nat) (good_payloads ps)
  /\ (35 * List.length (good_payloads ps) <= List.length (bytes_of ps))%nat.
Proof.
  induction ps as [|[j|q c|q] ps IH]; cbn [well_cut good_payloads].
  - intros _. split; [constructor|cbn; lia].
  - intros [_ H]. destruct (IH H) as [IH1 IH2]. split; [exact IH1|].
    rewrite bytes_of_cons, length_app. lia.
  - intros (_ & _ & _ & H). destruct (IH H) as [IH1 IH2].
    split; [exact IH1|]. rewrite bytes_of_cons, length_app. lia.
  - intros [Hq H]. destruct (IH H) as [IH1 IH2].
    split; [constructor; assumption|].
    rewrite bytes_of_cons, length_app. cbn [piece_bytes List.length].
    rewrite valid_frame_length by assumption. lia.
Qed.

(** The scan of a block cut into junk, frames with a wrong checksum byte
    and valid frames: the first two are passed over, the valid frames
    decoded. *)
Lemma scan_pieces (ps : list piece) :
  well_cut calculate_crc8 ps ->
  forall (pre : list Z) (k n : nat) r t,
    (List.length pre + List.length (bytes_of ps) <= n)%nat ->
    scan_all (pre ++ bytes_of ps ++ repeat 0 k) n
             (mkScan (List.length pre) r t) =
    scan_all (pre ++ bytes_of ps ++ repeat 0 k) n
             (mkScan (List.length pre + List.length (bytes_of ps))
                     (r ++ frames_samples clock (good_payloads ps) t)
                     (t + List.length (good_payloads ps))).
Proof.
  induction ps as [|[j|q c|q] ps IH];
    cbn [well_cut good_payloads]; intros Hw pre k n r t Hn.
  - cbn [pieces_bytes map List.concat List.length frames_samples].
    rewrite app_nil_r, !Nat.add_0_r. reflexivity.
  - destruct Hw as [Hm Hw].
    rewrite bytes_of_cons, length_app in *. cbn [piece_bytes] in *.
    rewrite <- app_assoc.
    rewrite scan_junk_bytes by (try lia; rewrite hd_pad; exact Hm).
    replace (pre ++ j ++ bytes_of ps ++ repeat 0 k)
      with ((pre ++ j) ++ bytes_of ps ++ repeat 0 k)
      by (rewrite <- app_assoc; reflexivity).
    rewrite <- length_app.
    rewrite IH by (try assumption; rewrite length_app; lia).
    rewrite length_app. do 2 f_equal. lia.
  - destruct Hw as (Hq & Hc & Hm & Hw).
    rewrite bytes_of_cons, length_app in *. cbn [piece_bytes] in *.
    rewrite frame_bytes_length in * by assumption.
    rewrite <- app_assoc.
    rewrite scan_lt by (cbn [index]; lia).
    rewrite (step_parse_err calculate_crc8 clock _ _ _
               (FromReceiver (ParseError "CRC check failed"))).
    2:{ cbn [index ticks]. rewrite parse_frame_at by assumption.
        apply Z.eqb_neq in Hc. rewrite Hc. reflexivity. }
    cbn [index result ticks].
    replace (pre ++ frame_bytes q c ++ bytes_of ps ++ repeat 0 k)
      with ((pre ++ [170]) ++ (85 :: q ++ [c]) ++ bytes_of ps ++ repeat 0 k)
      by (unfold frame_bytes; app_norm; reflexivity).
    replace (List.length pre + 1)%nat with (List.length (pre ++ [170]))
      by (rewrite length_app; reflexivity).
    rewrite scan_junk_bytes.
    2:{ rewrite hd_pad. cbn [app]. rewrite <- app_assoc. exact Hm. }
    2:{ rewrite length_app. cbn [List.length]. rewrite length_app.
        cbn [List.length]. lia. }
    replace ((pre ++ [170]) ++ (85 :: q ++ [c]) ++ bytes_of ps ++ repeat 0 k)
      with ((pre ++ frame_bytes q c) ++ bytes_of ps ++ repeat 0 k)
      by (unfold frame_bytes; app_norm; reflexivity).
    replace (List.length (pre ++ [170%Z])
             + List.length (85%Z :: q ++ [c]))%nat
      with (List.length (pre ++ frame_bytes q c))
      by (rewrite !length_app, frame_bytes_length by assumption;
          cbn [List.length]; rewrite length_app; cbn [List.length]; lia).
    rewrite IH by (try assumption;
                   rewrite length_app, frame_bytes_length by assumption;
                   lia).
    rewrite length_app, frame_bytes_length by assumption.
    do 2 f_equal. lia.
  - destruct Hw as [Hq Hw].
    rewrite bytes_of_cons, length_app in *. cbn [piece_bytes] in *.
    rewrite valid_frame_length in * by assumption.
    rewrite <- app_assoc.
    rewrite scan_lt by (cbn [index]; lia).
    rewrite step_valid_frame by (assumption || lia).
    replace (pre ++ valid_frame calculate_crc8 q ++ bytes_of ps ++ repeat 0 k)
      with ((pre ++ valid_frame calculate_crc8 q) ++ bytes_of ps
            ++ repeat 0 k)
      by (rewrite <- app_assoc; reflexivity).
    replace (List.length pre + 35)%nat
      with (List.length (pre ++ valid_frame calculate_crc8 q))
      by (rewrite length_app, valid_frame_length by assumption; lia).
    rewrite IH by (try assumption;
                   rewrite length_app, valid_frame_length by assumption;
                   lia).
    rewrite length_app, valid_frame_length by assumption.
    cbn [List.length frames_samples]. rewrite <- (app_assoc r).
    cbn [app]. f_equal. f_equal; lia.
Qed.

(** X4: a received block that is junk, frames with a wrong checksum byte
    and valid frames in any order and number (the junk and the bad frames
    holding no marker that could start a frame of its own) decodes to the
    samples of exactly its valid frames, in order: however much garbage
    there is, no valid frame is lost and none is invented. *)
Theorem read_pieces (ps : list piece) (t : nat) :
  well_cut calculate_crc8 ps ->
  (List.length (bytes_of ps) <= BUFFER_LEN)%nat ->
  read (ReadOk (bytes_of ps)) t =
  (Ok (frames_samples clock (good_payloads ps) t),
   (t + List.length (good_payloads ps))%nat).
Proof.
  intros Hw Hn.
  destruct (good_payloads_32 ps Hw) as [_ Hlen].
  destruct (bytes_of ps) as [|b bs] eqn:Eb.
  - cbn [List.length] in Hlen.
    assert (E : good_payloads ps = []) by (destruct (good_payloads ps);
      [reflexivity|cbn [List.length] in Hlen; lia]).
    rewrite E. cbn. rewrite Nat.add_0_r. reflexivity.
  - rewrite <- Eb in *.
    rewrite read_scan by (rewrite Eb in *; cbn [List.length] in *; lia).
    cbv zeta.
    pose proof (scan_pieces ps Hw [] (BUFFER_LEN - List.length (bytes_of ps))
                  (List.length (bytes_of ps)) [] t) as Hs.
    cbn [app List.length Nat.add] in Hs. rewrite Hs by lia.
    rewrite scan_ge by (cbn [index]; lia). reflexivity.
Qed.

(** X15: the scan only ever appends: started with samples already in
    hand it ends where it would have ended without them, with the same
    clock count, and returns them in front of the samples it would then
    have decoded; what a stretch of the buffer decodes to does not depend
    on what was decoded before it. *)
Theorem scan_appends (buffer : list Z) (n : nat) :
  forall (fuel i : nat) (r : list SensorData) (t : nat),
    let fresh := loop fuel buffer n (mkScan i [] t) in
    loop fuel buffer n (mkScan i r t) =
    mkScan (index fresh) (r ++ result fresh) (ticks fresh).
Proof.
  induction fuel as [|fuel IH]; intros i r t; cbv zeta; cbn [scan_loop index].
  - rewrite app_nil_r. reflexivity.
  - destruct (i <? n)%nat; [|rewrite app_nil_r; reflexivity].
    unfold scan_step. cbn [index result ticks].
    destruct ((i + 1 <? n)%nat && (at_ buffer i =? 170)
              && (at_ buffer (i + 1) =? 85));
      [destruct (parse buffer i (clock t)) as [[d j]|e]|].
    + rewrite (IH j (r ++ [d])), (IH j ([] ++ [d])). cbn [app].
      rewrite <- app_assoc. reflexivity.
    + apply IH.
    + apply IH.
Qed.

End ReceiverMore.

(* ------------------------------------------------------------------------- *)
(** * Further properties of the transmitter *)

Section LoggerMore.

Import Logger.
Import Config.

Ltac call_ioctl :=
  unfold bind at 1; unfold ioctl at 1; cbv zeta;
  cbn [log_call polls board_init_answers open_answers ioctl_answers imu_reads
       stdin_reads stack_garbage errno g_data stdout calls app];
  cbv beta iota.

Ltac run_ioctl := call_ioctl; change (0 =? 0) with true; cbv iota; cbn [negb].

Ltac fail_ioctl Hr :=
  call_ioctl; rewrite Hr; cbn [negb];
  unfold bind, get_errno, printf, ret;
  cbn [log_call polls board_init_answers open_answers ioctl_answers imu_reads
       stdin_reads stack_garbage errno g_data stdout calls];
  eexists; split; [reflexivity|];
  cbn [polls board_init_answers open_answers ioctl_answers imu_reads
       stdin_reads stack_garbage errno g_data stdout calls
       List.length firstn nth config_calls config_errors];
  rewrite <- ?app_assoc; cbn [app]; repeat split.

(** X5: [start_sensing] makes its four calls in order and stops at the
    first that fails: it then returns 1, having printed the message of that
    call with [errno], and makes none of the later calls, so the sensor is
    enabled only when rate, range and FIFO threshold were all accepted.
    When all four succeed it returns 0 and prints nothing.  A failure to
    set the FIFO threshold is reported in the words of the sampling-rate
    failure. *)
Theorem start_sensing_stops_at_first_failure
    (fd rate adrange gdrange nfifos : Z) (w : world) :
  (forall (pre : list (Z * Z)) (r e : Z) (rest : list (Z * Z)),
      ioctl_answers w = pre ++ (r, e) :: rest ->
      Forall (fun a => fst a = 0) pre ->
      (List.length pre < 4)%nat ->
      r <> 0 ->
      exists w',
        start_sensing fd rate adrange gdrange nfifos w = Done 1 w'
        /\ calls w' =
           calls w ++ firstn (S (List.length pre))
                             (config_calls fd rate adrange gdrange nfifos)
        /\ stdout w' =
           (stdout w ++ nth (List.length pre) config_errors EmptyString
            ++ fmt_d e ++ nl)%string
        /\ ioctl_answers w' = rest)
  /\ (forall (pre rest : list (Z * Z)),
      ioctl_answers w = pre ++ rest ->
      Forall (fun a => fst a = 0) pre ->
      List.length pre = 4%nat ->
      exists w',
        start_sensing fd rate adrange gdrange nfifos w = Done 0 w'
        /\ calls w' = calls w ++ config_calls fd rate adrange gdrange nfifos
        /\ stdout w' = stdout w
        /\ errno w' = errno w
        /\ ioctl_answers w' = rest)
  /\ nth 2 config_errors EmptyString = nth 0 config_errors EmptyString.
Proof.
  destruct w as [bi op io rd pl sr sg en gd so cl].
  cbn [ioctl_answers calls stdout errno].
  split; [|split; [|reflexivity]].
  - intros pre r e rest -> Hpre Hlen Hr. apply Z.eqb_neq in Hr.
    unfold start_sensing.
    destruct pre as [|[r0 e0] pre]; [fail_ioctl Hr|].
    apply Forall_cons_iff in Hpre as [H0 Hpre]. cbn [fst] in H0. subst r0.
    run_ioctl.
    destruct pre as [|[r1 e1] pre]; [fail_ioctl Hr|].
    apply Forall_cons_iff in Hpre as [H1 Hpre]. cbn [fst] in H1. subst r1.
    run_ioctl.
    destruct pre as [|[r2 e2] pre]; [fail_ioctl Hr|].
    apply Forall_cons_iff in Hpre as [H2 Hpre]. cbn [fst] in H2. subst r2.
    run_ioctl.
    destruct pre as [|[r3 e3] pre]; [fail_ioctl Hr|].
    cbn [List.length] in Hlen. lia.
  - intros pre rest -> Hpre Hlen.
    destruct pre as [|[r0 e0] [|[r1 e1] [|[r2 e2] [|[r3 e3] [|x pre]]]]];
      try discriminate Hlen.
    repeat (apply Forall_cons_iff in Hpre as [?H Hpre]).
    cbn [fst] in *. subst r0 r1 r2 r3.
    unfold start_sensing. do 4 run_ioctl. unfold ret.
    eexists. split; [reflexivity|].
    cbn [polls board_init_answers open_answers ioctl_answers imu_reads
         stdin_reads stack_garbage errno g_data stdout calls config_calls].
    rewrite <- ?app_assoc. cbn [app]. repeat split.
Qed.

Ltac run_world :=
  cbn [log_call polls board_init_answers open_answers ioctl_answers imu_reads
       stdin_reads stack_garbage errno g_data stdout calls app];
  cbv beta iota.

(** X6: when the board or the device cannot be had, [setup] prints why and
    ends there: a failed initialisation is followed by no [open], a failed
    [open] by no call at all; no sample is read and none printed. *)
Theorem setup_aborts_before_capture (w : world) :
  (forall (r : Z) (rest : list Z),
      board_init_answers w = r :: rest ->
      r < 0 ->
      exists w',
        setup w = Done tt w'
        /\ calls w' = calls w ++ [SerialBegin 921600; BoardInitialize 5]
        /\ stdout w' =
           (stdout w ++ "ERROR: Failed to initialize CXD5602PWBIMU." ++ nl)%string
        /\ imu_reads w' = imu_reads w
        /\ open_answers w' = open_answers w)
  /\ (forall (r : Z) (rest : list Z) (fd : Z) (rest' : list Z),
      board_init_answers w = r :: rest ->
      0 <= r ->
      open_answers w = fd :: rest' ->
      fd < 0 ->
      exists w',
        setup w = Done tt w'
        /\ calls w' =
           calls w ++ [SerialBegin 921600; BoardInitialize 5;
                       Open CXD5602PWBIMU_DEVPATH]
        /\ stdout w' =
           (stdout w ++ "Could not open the device:" ++ fmt_d fd ++ nl)%string
        /\ imu_reads w' = imu_reads w
        /\ ioctl_answers w' = ioctl_answers w).
Proof.
  destruct w as [bi op io rd pl sr sg en gd so cl].
  cbn [board_init_answers open_answers calls stdout imu_reads ioctl_answers].
  split.
  - intros r rest -> Hr. apply Z.ltb_lt in Hr.
    unfold setup. cbv zeta.
    unfold bind at 1. unfold Serial_begin. run_world.
    unfold bind at 1. unfold board_cxd5602pwbimu_initialize. cbv zeta.
    run_world. rewrite Hr. unfold printf. run_world.
    eexists. split; [reflexivity|]. run_world.
    rewrite <- app_assoc. repeat split.
  - intros r rest fd rest' -> Hr -> Hfd.
    apply Z.ltb_ge in Hr. apply Z.ltb_lt in Hfd.
    unfold setup. cbv zeta.
    unfold bind at 1. unfold Serial_begin. run_world.
    unfold bind at 1. unfold board_cxd5602pwbimu_initialize. cbv zeta.
    run_world. rewrite Hr.
    unfold bind at 1. unfold open. cbv zeta. run_world. rewrite Hfd.
    unfold printf. run_world.
    eexists. split; [reflexivity|]. run_world.
    rewrite <- !app_assoc. repeat split.
Qed.

Lemma bind_done {A B} (m : M A) (k : A -> M B) (w w2 : world) (b : B) :
  bind m k w = Done b w2 ->
  exists a w1, m w = Done a w1 /\ k a w1 = Done b w2.
Proof.
  unfold bind. destruct (m w) as [a w1|w1]; intros H; [|discriminate H].
  exists a, w1. split; [reflexivity|exact H].
Qed.




Lemma printf_done (text : string) (w w' : world) (u : unit) :
  printf text w = Done u w' ->
  stdout w' = (stdout w ++ text)%string /\ calls w' = calls w.
Proof.
  unfold printf. intros H. inversion H; subst. split; reflexivity.
Qed.

Lemma read_stdin_done (c c' : Z) (w w' : world) :
  read_stdin_into c w = Done c' w' ->
  calls w' = calls w ++ [ReadStdin] /\ stdout w' = stdout w.
Proof.
  unfold read_stdin_into. cbv zeta. cbn [log_call stdin_reads].
  destruct (stdin_reads w); intros H; inversion H; subst.
  split; reflexivity.
Qed.

Lemma dump_loop_end (fd nfifo disp : Z) (func : logfunc_t) (arg : Z) :
  forall (fuel : nat) (c : Z) (w w' : world) (code : Z),
    dump_loop fuel fd nfifo disp func arg c w = Done code w' ->
    capture_end code w'.
Proof.
  induction fuel as [|fuel IH]; intros c w w' code H; cbn [dump_loop] in H;
    [discriminate H|].
  apply bind_done in H. destruct H as (p & w1 & _ & H).
  destruct (poll_ret p <=? 0).
  - apply bind_done in H. destruct H as (u & w2 & Hp & H).
    inversion H; subst. apply printf_done in Hp as [Hp _].
    right. split; [reflexivity|]. left. eexists. exact Hp.
  - apply bind_done in H. destruct H as (returned & w2 & Himu & H).
    destruct returned as [v|].
    + inversion H; subst.
      destruct (negb (Z.land (revents1 p) POLLIN =? 0)); [|discriminate Himu].
      apply bind_done in Himu. destruct Himu as (r & w3 & _ & Himu).
      destruct (to_size_t r =? to_size_t (sizeof_data * nfifo)).
      * apply bind_done in Himu. destruct Himu as (g & w4 & _ & Himu).
        apply bind_done in Himu. destruct Himu as (x & w5 & _ & Himu).
        destruct (negb (disp =? 0) && negb (logfunc_eqb func fn_log2uart)).
        -- apply bind_done in Himu. destruct Himu as (g' & w6 & _ & Himu).
           apply bind_done in Himu. destruct Himu as (y & w7 & _ & Himu).
           discriminate Himu.
        -- discriminate Himu.
      * apply bind_done in Himu. destruct Himu as (u & w4 & Hp & Himu).
        inversion Himu; subst. apply printf_done in Hp as [Hp _].
        right. split; [reflexivity|]. right. eexists. eexists. exact Hp.
    + destruct (negb (Z.land (revents0 p) POLLIN =? 0)).
      * apply bind_done in H. destruct H as (c' & w3 & Hk & H).
        destruct (c' =? 113).
        -- inversion H; subst. apply read_stdin_done in Hk as [Hk _].
           left. split; [reflexivity|]. eexists. exact Hk.
        -- eapply IH. exact H.
      * eapply IH. exact H.
Qed.

(** X8: [dump_data] returns in three ways only: 0, and then the last thing
    it did was to read a key; or -1, and then the last thing it printed is
    "Poll error" or "Read error" with the count read. *)
Theorem dump_data_ends (fd nfifo disp : Z) (func : logfunc_t) (arg : Z)
    (w w' : world) (code : Z) :
  dump_data fd nfifo disp func arg w = Done code w' ->
  capture_end code w'.
Proof.
  unfold dump_data. intros H.
  apply bind_done in H. destruct H as (c & w1 & _ & H).
  eapply dump_loop_end. exact H.
Qed.

Lemma low_byte_stored (c b : Z) :
  u8 c -> u8 b -> to_int (Z.lor (Z.land c (Z.lnot 255)) b) = b.
Proof.
  intros Hc Hb. apply u8_land in Hc.
  rewrite <- Hc, <- Z.land_assoc, Z.land_lnot_diag, Z.land_0_r, Z.lor_0_l.
  apply to_int_small. unfold u8 in Hb. lia.
Qed.

(** X9: a turn of the capture loop in which only the keyboard is readable
    and a byte is read from it.  The byte goes into the low byte of [c];
    with the rest of [c] zero, the key [q] (113) makes [dump_data]'s loop
    return 0, with no further call, and any other key lets it go round
    again. *)
Theorem quit_key (fuel : nat) (fd nfifo disp : Z) (func : logfunc_t)
    (arg c : Z) (w : world) p prest b srest :
  polls w = p :: prest ->
  0 < poll_ret p ->
  Z.land (revents1 p) POLLIN = 0 ->
  Z.land (revents0 p) POLLIN <> 0 ->
  stdin_reads w = Some b :: srest ->
  u8 c -> u8 b ->
  exists w',
    calls w' = calls w ++ [Poll 1000; ReadStdin]
    /\ stdout w' = stdout w
    /\ polls w' = prest
    /\ stdin_reads w' = srest
    /\ imu_reads w' = imu_reads w
    /\ dump_loop (S fuel) fd nfifo disp func arg c w =
       if b =? 113 then Done 0 w'
       else dump_loop fuel fd nfifo disp func arg b w'.
Proof.
  intros Hp Hpos H1 H0 Hs Hc Hb.
  destruct w as [bi op io rd pl sr sg en gd so cl]. cbn in Hp, Hs.
  subst pl sr.
  eexists (mkWorld bi op io rd prest srest sg en gd so
             (cl ++ [Poll 1000; ReadStdin])).
  run_world. repeat split.
  cbn [dump_loop]. unfold bind at 1. unfold poll. cbv zeta. run_world.
  apply Z.leb_gt in Hpos. rewrite Hpos. rewrite H1.
  apply Z.eqb_neq in H0. rewrite H0. cbn [negb Z.eqb].
  unfold bind at 1. unfold ret at 1.
  unfold bind at 1. unfold read_stdin_into. cbv zeta. run_world.
  rewrite low_byte_stored by assumption.
  rewrite <- app_assoc. cbn [app]. destruct (b =? 113); reflexivity.
Qed.

Lemma log2uart_each_printf (dat : list cxd5602pwbimu_data_t) (w : world) :
  log2uart_each dat w = printf (uart_text dat) w.
Proof.
  revert w. induction dat as [|d dat IH]; intros w;
    cbn [log2uart_each uart_text].
  - unfold ret, printf. rewrite StringFacts.append_nil_r.
    destruct w; reflexivity.
  - unfold bind. unfold printf at 1. rewrite IH. unfold printf.
    run_world. rewrite StringFacts.append_assoc. reflexivity.
Qed.

Lemma log2uart_printf (dat : list cxd5602pwbimu_data_t) (num arg : Z)
    (w : world) :
  log2uart dat num arg w =
  (printf (uart_text (firstn (Z.to_nat num) dat)) ;;; ret 0) w.
Proof.
  unfold log2uart, bind. rewrite log2uart_each_printf. reflexivity.
Qed.


Lemma length_append (a b : string) :
  String.length (a ++ b) = (String.length a + String.length b)%nat.
Proof.
  induction a as [|x a IH]; cbn [String.append String.length Nat.add];
    [reflexivity|]. rewrite IH. reflexivity.
Qed.

Lemma all_chars_append (f : ascii -> bool) (a b : string) :
  all_chars f (a ++ b) = all_chars f a && all_chars f b.
Proof.
  induction a as [|x a IH]; cbn [String.append all_chars]; [reflexivity|].
  rewrite IH. apply andb_assoc.
Qed.

Lemma hex_digit_uart (d : Z) : uart_char (hex_digit d) = true.
Proof.
  destruct d as [|p|p]; try reflexivity.
  do 4 (destruct p as [p|p|]; try reflexivity).
Qed.

Lemma uart_line_shape (d : cxd5602pwbimu_data_t) :
  String.length (uart_line d) = 72%nat
  /\ all_chars uart_char (uart_line d) = true.
Proof.
  split.
  - unfold uart_line. rewrite !length_append. reflexivity.
  - unfold uart_line. rewrite !all_chars_append.
    unfold fmt_08x. cbn [map string_of_list_ascii all_chars].
    rewrite !hex_digit_uart. reflexivity.
Qed.

(** X11: [log2uart] always returns 0 and makes no call into the system; it
    prints its first [num] records and nothing else, each as 72 characters
    (eight fields of eight, seven commas, a line feed) that are lower-case
    hex digits, commas and line feeds only. *)
Theorem log2uart_output (dat : list cxd5602pwbimu_data_t) (num arg : Z)
    (w : world) :
  let printed := uart_text (firstn (Z.to_nat num) dat) in
  log2uart dat num arg w = (printf printed ;;; ret 0) w
  /\ String.length printed =
     (72 * Nat.min (Z.to_nat num) (List.length dat))%nat
  /\ all_chars uart_char printed = true.
Proof.
  cbv zeta. split; [apply log2uart_printf|].
  rewrite <- length_firstn.
  induction (firstn (Z.to_nat num) dat) as [|d l [IH1 IH2]];
    cbn [uart_text List.length].
  - split; reflexivity.
  - destruct (uart_line_shape d) as [H1 H2].
    rewrite length_append, all_chars_append, H1, H2, IH1, IH2.
    split; [lia|reflexivity].
Qed.

(** X12: the text line loses nothing: two records of 32-bit fields that
    are printed as the same line are the same record. *)
Theorem uart_line_injective (d1 d2 : cxd5602pwbimu_data_t) :
  TextDecoder.data_u32 d1 -> TextDecoder.data_u32 d2 ->
  uart_line d1 = uart_line d2 -> d1 = d2.
Proof.
  intros H1 H2 E.
  apply (f_equal TextDecoder.bytes_of_string) in E.
  rewrite !bytes_of_uart_line in E. apply app_inv_tail in E.
  pose proof (decode_line_body d1 0 H1) as D1.
  pose proof (decode_line_body d2 0 H2) as D2.
  rewrite E, D2 in D1. inversion D1.
  destruct d1, d2. cbn in *. congruence.
Qed.

(** With fewer answers queued than the loop needs, [drop_loop] makes one
    read more than there are answers and waits in it. *)
Lemma drop_loop_waits (fd nfifo : Z) :
  1 <= nfifo <= MAX_NFIFO ->
  forall (m fuel : nat) (w : world),
    (List.length (imu_reads w) < m)%nat ->
    (List.length (imu_reads w) < fuel)%nat ->
    Z.of_nat m * nfifo < 2 ^ 31 ->
    drop_loop fuel fd (Z.of_nat m * nfifo) nfifo w =
    Blocked (after_reads fd (to_size_t (sizeof_data * nfifo))
               (S (List.length (imu_reads w))) w).
Proof.
  unfold MAX_NFIFO. intros Hf.
  induction m as [|m IH]; intros [|fuel] w Hm Hfuel Hsmall; try lia.
  cbn [drop_loop].
  destruct (Z.of_nat (S m) * nfifo =? 0) eqn:E;
    [apply Z.eqb_eq in E; nia|].
  unfold bind at 1.
  destruct (imu_reads w) as [|[r stored] rest] eqn:Er.
  - cbn [List.length after_reads]. unfold after_read, read_imu. cbv zeta.
    cbn [log_call imu_reads]. rewrite Er. reflexivity.
  - rewrite (read_imu_done _ _ _ _ _ _ Er).
    replace (to_int (Z.of_nat (S m) * nfifo - nfifo))
      with (Z.of_nat m * nfifo) by (rewrite to_int_small; nia).
    destruct (after_read_fields fd (to_size_t (sizeof_data * nfifo)) w)
      as (A1 & _).
    cbn [List.length] in *.
    rewrite IH; rewrite ?A1, ?Er; cbn [tl]; try lia; try nia.
    reflexivity.
Qed.

(** X13: [drop_50msdata] reads with no [poll] and no timeout: when the
    driver delivers fewer blocks than the count asks for, it does not
    return; it has then made one read more than there were blocks, and
    printed nothing. *)
Theorem drop_50msdata_waits (fd samprate nfifo : Z) (w : world) :
  0 <= samprate < 2 ^ 31 -> 1 <= nfifo <= MAX_NFIFO ->
  (List.length (imu_reads w)
   < Z.to_nat (drop_count samprate nfifo / nfifo))%nat ->
  exists w',
    drop_50msdata fd samprate nfifo w = Blocked w'
    /\ calls w' =
       calls w ++ repeat (ReadImu fd (sizeof_data * nfifo))
                         (S (List.length (imu_reads w)))
    /\ imu_reads w' = []
    /\ stdout w' = stdout w.
Proof.
  intros Hr Hf Hlen.
  pose proof (drop_count_round_up samprate nfifo Hr Hf) as Hround.
  cbv zeta in Hround. destruct Hround as (Hmod & Hge & Hrange).
  set (k := drop_count samprate nfifo) in *.
  unfold MAX_NFIFO in Hf.
  assert (Hq : 0 <= samprate / 20 < 2 ^ 27).
  { split; [apply Z.div_pos; lia|]. apply Z.div_lt_upper_bound; lia. }
  assert (Hdiv : k / nfifo * nfifo = k).
  { pose proof (Z.div_mod k nfifo ltac:(lia)). lia. }
  assert (Hpos : 0 <= k / nfifo) by (apply Z.div_pos; lia).
  assert (Hm : Z.of_nat (Z.to_nat (k / nfifo)) * nfifo = k)
    by (rewrite Z2Nat.id; assumption).
  exists (after_reads fd (to_size_t (sizeof_data * nfifo))
            (S (List.length (imu_reads w))) w).
  destruct (after_reads_fields fd (to_size_t (sizeof_data * nfifo))
              (S (List.length (imu_reads w))) w) as (A1 & A2 & A3 & _).
  rewrite (to_size_t_small (sizeof_data * nfifo)) in A3 at 2
    by (unfold sizeof_data; lia).
  split; [|split; [exact A3|split; [|exact A2]]].
  - unfold drop_50msdata, bind. fold k. rewrite <- Hm at 1.
    rewrite (drop_loop_waits fd nfifo ltac:(unfold MAX_NFIFO; lia)
               (Z.to_nat (k / nfifo))); try lia. reflexivity.
  - rewrite A1. apply skipn_all2. lia.
Qed.

(** X14: the samples [drop_50msdata] discards cover the 50 ms its comment
    names when the rate is a multiple of 20 or below 20 (twenty times the
    count is then at least the rate); for other rates the division by 20
    rounds down first and the count can fall short, but by less than one
    twentieth of a second's samples: at rate 30 and depth 1 a single
    sample, a thirtieth of a second, is discarded. *)
Theorem drop_span (samprate nfifo : Z) :
  0 <= samprate < 2 ^ 31 -> 1 <= nfifo <= MAX_NFIFO ->
  let k := drop_count samprate nfifo in
  (samprate mod 20 = 0 \/ samprate < 20 -> samprate <= 20 * k)
  /\ samprate - 20 < 20 * k
  /\ 20 * drop_count 30 1 < 30.
Proof.
  intros Hr Hf.
  pose proof (drop_count_round_up samprate nfifo Hr Hf) as Hround.
  cbv zeta in *. destruct Hround as (_ & Hge & Hrange).
  unfold MAX_NFIFO in Hf.
  pose proof (Z.div_mod samprate 20 ltac:(lia)) as Hdm.
  pose proof (Z.mod_pos_bound samprate 20 ltac:(lia)) as Hmb.
  split; [|split].
  - intros [H|H]; lia.
  - lia.
  - vm_compute. reflexivity.
Qed.

End LoggerMore.

(* ------------------------------------------------------------------------- *)
(** * The further properties on concrete runs *)

Module MoreExamples.

Import Receiver.
Import Logger.
Import Pieces.
Import Config.
Import Scenario.
Import MoreScenario.

Lemma partial_frame_padded_witness :
  (List.length (@nil Z) <= 32)%nat
  /\ crc ([] ++ repeat 0 (32 - List.length (@nil Z))) = 0
  /\ read_binary_sensor_data crc clock (ReadOk [170; 85]) 0 =
     (Ok [decode_payload ([] ++ repeat 0 (32 - List.length (@nil Z)))
            (clock 0)], 1%nat).
Proof.
  assert (H1 : (List.length (@nil Z) <= 32)%nat) by (cbn; lia).
  assert (H2 : crc ([] ++ repeat 0 (32 - List.length (@nil Z))) = 0)
    by (vm_compute; reflexivity).
  split; [exact H1|]. split; [exact H2|].
  exact (partial_frame_padded crc clock [] 0%nat H1 H2).
Defined.

Lemma example_pieces_well_cut : well_cut crc example_pieces.
Proof.
  unfold example_pieces. cbn [well_cut].
  repeat match goal with
    | |- _ /\ _ => split
    | |- True => exact I
    | |- has_marker _ = false => vm_compute; reflexivity
    | |- List.length _ = _ => reflexivity
    | |- _ <> _ => vm_compute; discriminate
    end.
Defined.

Lemma read_pieces_witness :
  well_cut crc example_pieces
  /\ (List.length (pieces_bytes crc example_pieces) <= BUFFER_LEN)%nat
  /\ read_binary_sensor_data crc clock
       (ReadOk (pieces_bytes crc example_pieces)) 0 =
     (Ok (frames_samples clock (good_payloads example_pieces) 0),
      (0 + List.length (good_payloads example_pieces))%nat).
Proof.
  assert (H2 : (List.length (pieces_bytes crc example_pieces)
                <= BUFFER_LEN)%nat)
    by (apply Nat.leb_le; vm_compute; reflexivity).
  split; [exact example_pieces_well_cut|]. split; [exact H2|].
  exact (read_pieces crc clock example_pieces 0%nat
           example_pieces_well_cut H2).
Defined.

Lemma start_sensing_stops_at_first_failure_witness :
  ioctl_answers refusing_world = [(0, 0); (0, 0)] ++ (-1, 22) :: [(0, 0)]
  /\ Forall (fun a : Z * Z => fst a = 0) [(0, 0); (0, 0)]
  /\ (List.length [(0, 0); (0, 0)] < 4)%nat
  /\ -1 <> 0
  /\ exists w',
      start_sensing 3 960 16 500 4 refusing_world = Done 1 w'
      /\ calls w' =
         calls refusing_world
         ++ firstn (S (List.length [(0, 0); (0, 0)]))
                   (config_calls 3 960 16 500 4)
      /\ stdout w' =
         (stdout refusing_world
          ++ nth (List.length [(0, 0); (0, 0)]) config_errors EmptyString
          ++ fmt_d 22 ++ nl)%string
      /\ ioctl_answers w' = [(0, 0)].
Proof.
  assert (H1 : ioctl_answers refusing_world =
               [(0, 0); (0, 0)] ++ (-1, 22) :: [(0, 0)]) by reflexivity.
  assert (H2 : Forall (fun a : Z * Z => fst a = 0) [(0, 0); (0, 0)])
    by (repeat constructor).
  assert (H3 : (List.length [(0, 0); (0, 0)] < 4)%nat) by (cbn; lia).
  assert (H4 : -1 <> 0) by discriminate.
  split; [exact H1|]. split; [exact H2|]. split; [exact H3|].
  split; [exact H4|].
  exact (proj1 (start_sensing_stops_at_first_failure 3 960 16 500 4
                  refusing_world) [(0, 0); (0, 0)] (-1) 22 [(0, 0)]
           H1 H2 H3 H4).
Defined.

Lemma setup_aborts_before_capture_witness :
  (board_init_answers no_board_world = -1 :: []
   /\ -1 < 0
   /\ exists w',
       setup no_board_world = Done tt w'
       /\ calls w' =
          calls no_board_world ++ [SerialBegin 921600; BoardInitialize 5]
       /\ stdout w' =
          (stdout no_board_world
           ++ "ERROR: Failed to initialize CXD5602PWBIMU." ++ nl)%string
       /\ imu_reads w' = imu_reads no_board_world
       /\ open_answers w' = open_answers no_board_world)
  /\ (board_init_answers no_device_world = 0 :: []
      /\ 0 <= 0
      /\ open_answers no_device_world = -2 :: []
      /\ -2 < 0
      /\ exists w',
          setup no_device_world = Done tt w'
          /\ calls w' =
             calls no_device_world
             ++ [SerialBegin 921600; BoardInitialize 5;
                 Open CXD5602PWBIMU_DEVPATH]
          /\ stdout w' =
             (stdout no_device_world ++ "Could not open the device:"
              ++ fmt_d (-2) ++ nl)%string
          /\ imu_reads w' = imu_reads no_device_world
          /\ ioctl_answers w' = ioctl_answers no_device_world).
Proof.
  assert (A1 : board_init_answers no_board_world = -1 :: []) by reflexivity.
  assert (A2 : -1 < 0) by lia.
  assert (B1 : board_init_answers no_device_world = 0 :: []) by reflexivity.
  assert (B2 : 0 <= 0) by lia.
  assert (B3 : open_answers no_device_world = -2 :: []) by reflexivity.
  assert (B4 : -2 < 0) by lia.
  split.
  - split; [exact A1|]. split; [exact A2|].
    exact (proj1 (setup_aborts_before_capture no_board_world) (-1) [] A1 A2).
  - split; [exact B1|]. split; [exact B2|]. split; [exact B3|].
    split; [exact B4|].
    exact (proj2 (setup_aborts_before_capture no_device_world) 0 [] (-2) []
             B1 B2 B3 B4).
Defined.


Lemma dump_data_ends_witness :
  let w' := final_world (dump_data 3 4 0 fn_log2uart 0 timeout_world) in
  dump_data 3 4 0 fn_log2uart 0 timeout_world = Done (-1) w'
  /\ capture_end (-1) w'.
Proof.
  intros w'.
  assert (H : dump_data 3 4 0 fn_log2uart 0 timeout_world = Done (-1) w')
    by (vm_compute; reflexivity).
  split; [exact H|].
  exact (dump_data_ends 3 4 0 fn_log2uart 0 timeout_world w' (-1) H).
Defined.

Lemma quit_key_witness :
  polls quit_world = mkPoll 1 1 0 :: []
  /\ 0 < poll_ret (mkPoll 1 1 0)
  /\ Z.land (revents1 (mkPoll 1 1 0)) POLLIN = 0
  /\ Z.land (revents0 (mkPoll 1 1 0)) POLLIN <> 0
  /\ stdin_reads quit_world = Some 113 :: []
  /\ u8 0 /\ u8 113
  /\ exists w',
      calls w' = calls quit_world ++ [Poll 1000; ReadStdin]
      /\ stdout w' = stdout quit_world
      /\ polls w' = []
      /\ stdin_reads w' = []
      /\ imu_reads w' = imu_reads quit_world
      /\ dump_loop 1 3 4 0 fn_log2uart 0 0 quit_world =
         if 113 =? 113 then Done 0 w'
         else dump_loop 0 3 4 0 fn_log2uart 0 113 w'.
Proof.
  assert (H1 : polls quit_world = mkPoll 1 1 0 :: []) by reflexivity.
  assert (H2 : 0 < poll_ret (mkPoll 1 1 0)) by (cbn; lia).
  assert (H3 : Z.land (revents1 (mkPoll 1 1 0)) POLLIN = 0) by reflexivity.
  assert (H4 : Z.land (revents0 (mkPoll 1 1 0)) POLLIN <> 0)
    by (cbn; discriminate).
  assert (H5 : stdin_reads quit_world = Some 113 :: []) by reflexivity.
  assert (H6 : u8 0) by (unfold u8; lia).
  assert (H7 : u8 113) by (unfold u8; lia).
  split; [exact H1|]. split; [exact H2|]. split; [exact H3|].
  split; [exact H4|]. split; [exact H5|]. split; [exact H6|].
  split; [exact H7|].
  exact (quit_key 0 3 4 0 fn_log2uart 0 0 quit_world (mkPoll 1 1 0) [] 113 []
           H1 H2 H3 H4 H5 H6 H7).
Defined.


Lemma uart_line_injective_witness :
  let d := mkData 291 (f32_from_bits 1092616192) ONE ONE ONE ONE ONE ONE in
  TextDecoder.data_u32 scenario_record
  /\ TextDecoder.data_u32 d
  /\ uart_line scenario_record = uart_line d
  /\ scenario_record = d.
Proof.
  intros d.
  assert (H1 : TextDecoder.data_u32 scenario_record)
    by (unfold TextDecoder.data_u32, u32; cbn; lia).
  assert (H2 : TextDecoder.data_u32 d)
    by (unfold TextDecoder.data_u32, u32; cbn; lia).
  assert (H3 : uart_line scenario_record = uart_line d) by reflexivity.
  split; [exact H1|]. split; [exact H2|]. split; [exact H3|].
  exact (uart_line_injective scenario_record d H1 H2 H3).
Defined.

Lemma drop_50msdata_waits_witness :
  0 <= 960 < 2 ^ 31
  /\ 1 <= 4 <= MAX_NFIFO
  /\ (List.length (imu_reads stalled_world)
      < Z.to_nat (drop_count 960 4 / 4))%nat
  /\ exists w',
      drop_50msdata 3 960 4 stalled_world = Blocked w'
      /\ calls w' =
         calls stalled_world
         ++ repeat (ReadImu 3 (sizeof_data * 4))
                   (S (List.length (imu_reads stalled_world)))
      /\ imu_reads w' = []
      /\ stdout w' = stdout stalled_world.
Proof.
  assert (H1 : 0 <= 960 < 2 ^ 31) by lia.
  assert (H2 : 1 <= 4 <= MAX_NFIFO) by (unfold MAX_NFIFO; lia).
  assert (H3 : (List.length (imu_reads stalled_world)
                < Z.to_nat (drop_count 960 4 / 4))%nat)
    by (apply Nat.ltb_lt; vm_compute; reflexivity).
  split; [exact H1|]. split; [exact H2|]. split; [exact H3|].
  exact (drop_50msdata_waits 3 960 4 stalled_world H1 H2 H3).
Defined.

Lemma drop_span_witness :
  0 <= 960 < 2 ^ 31
  /\ 1 <= 4 <= MAX_NFIFO
  /\ (960 mod 20 = 0 \/ 960 < 20)
  /\ 960 <= 20 * drop_count 960 4
  /\ 960 - 20 < 20 * drop_count 960 4.
Proof.
  assert (H1 : 0 <= 960 < 2 ^ 31) by lia.
  assert (H2 : 1 <= 4 <= MAX_NFIFO) by (unfold MAX_NFIFO; lia).
  assert (H3 : 960 mod 20 = 0 \/ 960 < 20) by (left; reflexivity).
  pose proof (drop_span 960 4 H1 H2) as H. cbv zeta in H.
  destruct H as (Ha & Hb & _).
  split; [exact H1|]. split; [exact H2|]. split; [exact H3|].
  split; [exact (Ha H3)|exact Hb].
Defined.

End MoreExamples.
